(** * Amortization and payment application of the lending tracker

    A shallow embedding of the loan arithmetic found in the two React
    components of the repository:

    - [LendingRecords.computeEmi] and the checks [LendingRecords.addBorrower]
      performs before it calls [computeEmi] (the loan-creation path);
    - [Dashboard.handlePayment], the per-payment amortization step, with the
      calendar arithmetic of the JavaScript [Date] object it relies on
      ([JsDate]), the effect that keeps the installment counters in step
      with the loans, and the Pay button that calls the handler;
    - the same handler with the browser's time zone as a parameter
      ([ZonedDashboard]): [getMonth] and [setMonth] work on local time.

    JavaScript numbers are idealised as exact rationals ([Q]); month counts,
    installment counters and time values are integers ([Z]).  Equality of
    amounts is [Qeq].  IEEE rounding, NaN and the infinities are outside the
    model; every division the theorems go through is shown to have a
    non-zero divisor.

    The definitions come first ([JsNum], [LendingRecords], [JsDate],
    [Dashboard], [Samples], [DashboardEffects], [BorrowerList],
    [ZonedDashboard]); the theorems follow in [EmiFacts], [DateFacts],
    [PaymentFacts], [AmortizationFacts], [BorrowerFacts], [EffectFacts],
    [TerminalFacts], [CallFacts] and [ZonedFacts]. *)

From Stdlib Require Import ZArith QArith Qminmax Qpower Qfield Lqa Lia Bool.
From Stdlib Require Import Ascii String.
From stdpp Require Import gmap strings list.

Local Open Scope Q_scope.

(** ** Number helpers *)

Module JsNum.

(** [a < b] on numbers, as a boolean. *)
Definition Qlt_bool (a b : Q) : bool := negb (Qle_bool b a).

(** [x || 0] on a number: a falsy number (zero) is replaced by [0]. *)
Definition orZero (x : Z) : Z := if (x =? 0)%Z then 0%Z else x.

(** [o || 0] where [o] may be [undefined]. *)
Definition undefOrZero (o : option Z) : Z :=
  match o with
  | Some x => orZero x
  | None => 0%Z
  end.

End JsNum.

(** ** LendingRecords: EMI computation and creation-time validation *)

Module LendingRecords.
Import JsNum.

(** [computeEmi(principal, rate, tenure)]: the guard [!tenure || tenure <= 0]
    returns [0]; a zero monthly rate gives the straight-line installment;
    otherwise the reducing-balance annuity formula. *)
Definition computeEmi (principal rate : Q) (tenure : Z) : Q :=
  if (tenure =? 0)%Z || (tenure <=? 0)%Z then 0
  else
    let monthlyRate := rate / (12 * 100) in
    if Qeq_bool monthlyRate 0 then principal / inject_Z tenure
    else
      let pow := (1 + monthlyRate) ^ tenure in
      (principal * monthlyRate * pow) / (pow - 1).

(** [!s.trim()] on a text field: true when the text is empty or consists
    of white space only.  A text is held as its UTF-8 bytes, and white
    space is what [String.prototype.trim] strips: the ECMAScript white
    space and line terminator code points U+0009 to U+000D, U+0020,
    U+00A0, U+1680, U+2000 to U+200A, U+2028, U+2029, U+202F, U+205F,
    U+3000 and U+FEFF. *)
Definition isWhite (c : ascii) : bool :=
  (Ascii.eqb c " " || Ascii.eqb c "009" || Ascii.eqb c "010" ||
   Ascii.eqb c "011" || Ascii.eqb c "012" || Ascii.eqb c "013")%char.

(** U+00A0 is the byte pair C2 A0. *)
Definition isWhite2 (c1 c2 : ascii) : bool :=
  (Ascii.eqb c1 "194" && Ascii.eqb c2 "160")%char.

(** The three-byte white space: U+1680 (E1 9A 80), U+2000 to U+200A
    (E2 80 80 to E2 80 8A), U+2028, U+2029, U+202F (E2 80 A8, A9, AF),
    U+205F (E2 81 9F), U+3000 (E3 80 80) and U+FEFF (EF BB BF). *)
Definition isWhite3 (c1 c2 c3 : ascii) : bool :=
  (Ascii.eqb c1 "225" && Ascii.eqb c2 "154" && Ascii.eqb c3 "128")%char
  || (Ascii.eqb c1 "226" && Ascii.eqb c2 "128"
      && ((128 <=? nat_of_ascii c3)%nat && (nat_of_ascii c3 <=? 138)%nat
          || Ascii.eqb c3 "168" || Ascii.eqb c3 "169" || Ascii.eqb c3 "175"))%char
  || (Ascii.eqb c1 "226" && Ascii.eqb c2 "129" && Ascii.eqb c3 "159")%char
  || (Ascii.eqb c1 "227" && Ascii.eqb c2 "128" && Ascii.eqb c3 "128")%char
  || (Ascii.eqb c1 "239" && Ascii.eqb c2 "187" && Ascii.eqb c3 "191")%char.

Fixpoint blank (s : string) : bool :=
  match s with
  | EmptyString => true
  | String c1 rest1 =>
    if isWhite c1 then blank rest1
    else
      match rest1 with
      | EmptyString => false
      | String c2 rest2 =>
        if isWhite2 c1 c2 then blank rest2
        else
          match rest2 with
          | EmptyString => false
          | String c3 rest3 =>
            if isWhite3 c1 c2 c3 then blank rest3 else false
          end
      end
  end.

(** A numeric form field holds the text of an [<input type="number">]:
    [None] stands for the empty text, [Some x] for the text of the number
    [x].  The empty text is falsy, and [Number("")] is [0]. *)
Definition emptyText {A : Type} (field : option A) : bool :=
  match field with
  | Some _ => false
  | None => true
  end.

Definition NumberQ (field : option Q) : Q :=
  match field with
  | Some x => x
  | None => 0
  end.

Definition NumberZ (field : option Z) : Z :=
  match field with
  | Some x => x
  | None => 0%Z
  end.

(** How [addBorrower] ends: the destructive toast 'Missing Fields', the
    destructive toast 'Invalid Values' (both return before anything is
    computed or saved), or a new borrower record carrying the EMI. *)
Inductive AddBorrowerResult : Type :=
| MissingFields
| InvalidValues
| BorrowerAdded (emi : Q).

Definition addBorrower (borrowerName borrowerEmail : string)
           (principalAmount interestRate : option Q) (tenure : option Z)
  : AddBorrowerResult :=
  if blank borrowerName || blank borrowerEmail || emptyText principalAmount
     || emptyText interestRate || emptyText tenure
  then MissingFields
  else
    let principal := NumberQ principalAmount in
    let rate := NumberQ interestRate in
    let months := NumberZ tenure in
    if Qle_bool principal 0 || (months <=? 0)%Z || Qlt_bool rate 0
    then InvalidValues
    else BorrowerAdded (computeEmi principal rate months).

End LendingRecords.

(** ** The calendar arithmetic of the JavaScript Date object

    A [Date] is its time value: milliseconds since 1970-01-01T00:00:00Z.
    The local time zone is taken to be UTC (no offset, no daylight saving),
    so [LocalTime] and [UTC] are the identity.  Months are numbered from
    [0] (January) as in JavaScript. *)

Module JsDate.
Local Open Scope Z_scope.

Definition msPerDay : Z := 86400000.

Definition Day (t : Z) : Z := t / msPerDay.
Definition TimeWithinDay (t : Z) : Z := t mod msPerDay.

(** A calendar date: year, month in [0..11], day of the month from [1]. *)
Record Civil : Type := mkCivil { cYear : Z; cMonth : Z; cDate : Z }.

(** Day number (days since the epoch) of a date of the proleptic Gregorian
    calendar; the year is counted from March so that the leap day comes
    last. *)
Definition daysFromCivil (year month date : Z) : Z :=
  let y := if month <=? 1 then year - 1 else year in
  let era := y / 400 in
  let yoe := y - era * 400 in
  let mp := if month <=? 1 then month + 10 else month - 2 in
  let doy := (153 * mp + 2) / 5 + date - 1 in
  let doe := yoe * 365 + yoe / 4 - yoe / 100 + doy in
  era * 146097 + doe - 719468.

(** The calendar date of a day number. *)
Definition civilFromDays (day : Z) : Civil :=
  let z := day + 719468 in
  let era := z / 146097 in
  let doe := z - era * 146097 in
  let yoe := (doe - doe / 1460 + doe / 36524 - doe / 146096) / 365 in
  let doy := doe - (365 * yoe + yoe / 4 - yoe / 100) in
  let mp := (5 * doy + 2) / 153 in
  let d := doy - (153 * mp + 2) / 5 + 1 in
  let m := if mp <? 10 then mp + 2 else mp - 10 in
  mkCivil (if m <=? 1 then yoe + era * 400 + 1 else yoe + era * 400) m d.

Definition YearFromTime (t : Z) : Z := cYear (civilFromDays (Day t)).
Definition MonthFromTime (t : Z) : Z := cMonth (civilFromDays (Day t)).
Definition DateFromTime (t : Z) : Z := cDate (civilFromDays (Day t)).

(** [MakeDay(year, month, date)]: the month may lie outside [0..11] and the
    date outside the month; the day number is that of the first of the
    normalised month plus [date - 1]. *)
Definition MakeDay (year month date : Z) : Z :=
  let ym := year + month / 12 in
  let mn := month mod 12 in
  daysFromCivil ym mn 1 + date - 1.

Definition MakeDate (day time : Z) : Z := day * msPerDay + time.

(** [d.getMonth()] and [d.setMonth(month)] on a time value that is read
    as it stands, which is what the two methods do in a browser whose time
    zone is UTC, and what they do to the local time value in any other
    zone ([ZonedDashboard.getMonthIn] and [ZonedDashboard.setMonthIn] put
    the conversions around them). *)
Definition getMonth (t : Z) : Z := MonthFromTime t.

(** [d.setMonth(month)]: year, day of the month and time of day are kept
    and handed to [MakeDay] with the new month. *)
Definition setMonth (t month : Z) : Z :=
  MakeDate (MakeDay (YearFromTime t) month (DateFromTime t)) (TimeWithinDay t).

(** The time value of midnight (UTC) of a calendar date, the value of
    [new Date("YYYY-MM-DD")]; [month] is [0]-based. *)
Definition dateOf (year month date : Z) : Z :=
  MakeDate (daysFromCivil year month date) 0.

(** Number of days of a month ([month] in [0..11]). *)
Definition isLeapYear (year : Z) : bool :=
  ((year mod 4 =? 0) && negb (year mod 100 =? 0)) || (year mod 400 =? 0).

Definition daysInMonth (year month : Z) : Z :=
  if month =? 1 then (if isLeapYear year then 29 else 28)
  else if (month =? 3) || (month =? 5) || (month =? 8) || (month =? 10) then 30
  else 31.

(** The month that follows [(year, month)]. *)
Definition nextMonth (year month : Z) : Z * Z :=
  (year + (month + 1) / 12, (month + 1) mod 12).

(** A date that exists in the calendar. *)
Definition validCivil (c : Civil) : bool :=
  (0 <=? cMonth c) && (cMonth c <=? 11) &&
  (1 <=? cDate c) && (cDate c <=? daysInMonth (cYear c) (cMonth c)).

(** Length of the month counted from March ([0] is March, [11] is
    February, taken with its leap day), and the condition under which the
    February that ends the March-based year [yoe] of an era has 29 days. *)
Definition mpLength (mp : Z) : Z :=
  if (mp =? 1) || (mp =? 3) || (mp =? 6) || (mp =? 8) then 30
  else if mp =? 11 then 29 else 31.

Definition leapAfter (yoe : Z) : Prop :=
  (yoe + 1) mod 4 = 0 /\ ((yoe + 1) mod 100 <> 0 \/ yoe = 399).

End JsDate.

(** ** Dashboard: the payment handler *)

Module Dashboard.
Import JsNum JsDate LendingRecords.

Inductive LoanStatus : Type := active | completed.

(** The fields of a [Loan] that the dashboard reads.  [nextDueDate] is
    [null] (here [None]) or the time value of an ISO date string. *)
Record Loan : Type := mkLoan {
  loanId : string;
  principalAmount : Q;
  interestRate : Q;
  tenure : Z;
  emiAmount : Q;
  remainingPrincipal : Q;
  paidInstallments : Z;
  nextDueDate : option Z;
  createdAt : Z;
  status : LoanStatus
}.

Record User : Type := mkUser { user_id : string; user_name : string }.

(** The JSON body posted to [/api/loans/:loanId/pay]. *)
Record PayBody : Type := mkPayBody {
  body_userId : string;
  body_paidInstallments : Z;
  body_remainingPrincipal : Q;
  body_nextDueDate : option Z;
  body_status : LoanStatus
}.

(** The component state [handlePayment] reads and writes. *)
Record State : Type := mkState {
  user : option User;
  loans : option (list Loan);
  installmentsPaid : gmap string Z;
  isProcessingPayment : option string
}.

(** How a call of [handlePayment] ends. *)
Inductive Outcome : Type :=
| NotReady                        (* no user or loans not loaded: plain return *)
| LoanNotFound                    (* no loan with that id: plain return *)
| AlreadyCompleted                (* notice 'Loan Completed', nothing posted *)
| Paid (body : PayBody)           (* request posted and accepted, then refetch *)
| PaymentFailed (body : PayBody). (* request posted, response not ok *)

(** [loans.find(l => l.loanId === loanId)] *)
Definition findLoan (ls : list Loan) (id : string) : option Loan :=
  find (fun l => String.eqb (loanId l) id) ls.

(** [installmentsPaid[loanId] || 0] *)
Definition alreadyPaidOf (st : State) (id : string) : Z :=
  undefOrZero (installmentsPaid st !! id).

(** The locals of the amortization step. *)
Definition monthlyRate (l : Loan) : Q := interestRate l / 1200.
Definition interestPaid (l : Loan) : Q := remainingPrincipal l * monthlyRate l.
Definition principalPaid (l : Loan) : Q := emiAmount l - interestPaid l.
Definition newPrincipal (l : Loan) : Q :=
  Qmax 0 (remainingPrincipal l - principalPaid l).

(** The next due date: one [setMonth] step from the previous due date, or
    from [createdAt] when there is none. *)
Definition baseDate (l : Loan) : Z :=
  match nextDueDate l with
  | Some d => d
  | None => createdAt l
  end.

Definition nextDue (l : Loan) : Z :=
  setMonth (baseDate l) (getMonth (baseDate l) + 1).

(** The request body built for a loan whose recorded count is
    [alreadyPaid]. *)
Definition payBody (u : User) (alreadyPaid : Z) (l : Loan) : PayBody :=
  let installments := (alreadyPaid + 1)%Z in
  let isCompleted := (installments >=? tenure l)%Z in
  {| body_userId := user_id u;
     body_paidInstallments := installments;
     body_remainingPrincipal := newPrincipal l;
     body_nextDueDate := if isCompleted then None else Some (nextDue l);
     body_status := if isCompleted then completed else active |}.

Definition setProcessing (st : State) (p : option string) : State :=
  {| user := user st; loans := loans st;
     installmentsPaid := installmentsPaid st; isProcessingPayment := p |}.

Definition setInstallmentsPaid (st : State) (m : gmap string Z) : State :=
  {| user := user st; loans := loans st;
     installmentsPaid := m; isProcessingPayment := isProcessingPayment st |}.

(** [handlePayment(loanId)]; [responseOk] stands for the answer of the
    backend to the posted request.  The result is the component state when
    the handler returns (before any refetch) and the way it ended. *)
Definition handlePayment (responseOk : bool) (st : State) (id : string)
  : State * Outcome :=
  match user st, loans st with
  | Some u, Some ls =>
    let st1 := setProcessing st (Some id) in
    match findLoan ls id with
    | None => (setProcessing st1 None, LoanNotFound)
    | Some currentLoan =>
      let alreadyPaid := alreadyPaidOf st1 id in
      if (alreadyPaid >=? tenure currentLoan)%Z
      then (setProcessing st1 None, AlreadyCompleted)
      else
        let body := payBody u alreadyPaid currentLoan in
        let st2 :=
          setInstallmentsPaid st1
            (<[id := body_paidInstallments body]> (installmentsPaid st1)) in
        (setProcessing st2 None,
         if responseOk then Paid body else PaymentFailed body)
    end
  | _, _ => (st, NotReady)
  end.

(** The effect that rebuilds [installmentsPaid] whenever [loans] changes:
    one assignment per loan, in list order. *)
Definition syncInstallments (ls : list Loan) : gmap string Z :=
  fold_left (fun acc loan => <[loanId loan := orZero (paidInstallments loan)]> acc)
            ls ∅.

(** Modelled from the spec: the backend handler behind
    [/api/loans/:loanId/pay] is not part of the sources.  Following the
    spec, the stored loan snapshot becomes the posted one: remaining
    principal, paid-installment count, next due date and status are
    replaced, the loan terms are kept. *)
Definition storePayment (id : string) (b : PayBody) (l : Loan) : Loan :=
  if String.eqb (loanId l) id
  then {| loanId := loanId l;
          principalAmount := principalAmount l;
          interestRate := interestRate l;
          tenure := tenure l;
          emiAmount := emiAmount l;
          remainingPrincipal := body_remainingPrincipal b;
          paidInstallments := body_paidInstallments b;
          nextDueDate := body_nextDueDate b;
          createdAt := createdAt l;
          status := body_status b |}
  else l.

(** [refetch()] after an accepted payment: the loans are reloaded, and the
    synchronising effect rebuilds [installmentsPaid] from them. *)
Definition refetch (id : string) (b : PayBody) (st : State) : State :=
  match loans st with
  | Some ls =>
    let ls' := map (storePayment id b) ls in
    {| user := user st; loans := Some ls';
       installmentsPaid := syncInstallments ls';
       isProcessingPayment := isProcessingPayment st |}
  | None => st
  end.

(** One accepted payment attempt on loan [id], refetch included. *)
Definition payOnce (st : State) (id : string) : State :=
  match handlePayment true st id with
  | (st', Paid b) => refetch id b st'
  | (st', _) => st'
  end.

(** [k] payment attempts in sequence. *)
Fixpoint payTimes (k : nat) (st : State) (id : string) : State :=
  match k with
  | O => st
  | S k' => payOnce (payTimes k' st id) id
  end.

(** The loan [id] as the dashboard currently shows it. *)
Definition currentLoanOf (st : State) (id : string) : option Loan :=
  match loans st with
  | Some ls => findLoan ls id
  | None => None
  end.

(** Modelled from the spec: loan origination is not part of the sources.
    The spec creates a loan with remaining principal equal to the
    principal, no paid installment, status active, valid terms
    (principal > 0, rate >= 0, tenure >= 1) and the installment amount
    computed once from the terms. *)
Definition freshlyCreated (l : Loan) : Prop :=
  0 < principalAmount l /\
  0 <= interestRate l /\
  (1 <= tenure l)%Z /\
  emiAmount l == computeEmi (principalAmount l) (interestRate l) (tenure l) /\
  remainingPrincipal l == principalAmount l /\
  paidInstallments l = 0%Z /\
  status l = active.

(** The loan [l0] after [k] payment attempts that the backend accepts: an
    attempt below the tenure stores the posted body, a later one leaves
    the loan alone.  [payTimes_loanAfter] shows that this is the loan the
    dashboard holds after [payTimes k]. *)
Fixpoint loanAfter (u : User) (id : string) (l0 : Loan) (k : nat) : Loan :=
  match k with
  | O => l0
  | S k' =>
    let lk := loanAfter u id l0 k' in
    if (Z.of_nat k' <? tenure l0)%Z
    then storePayment id (payBody u (Z.of_nat k') lk) lk
    else lk
  end.

(** The Pay button of a loan card is disabled unless the loan is active
    and no payment of that loan is in flight; a click on an enabled button
    calls [handlePayment]. *)
Definition statusIsActive (s : LoanStatus) : bool :=
  match s with active => true | completed => false end.

Definition payButtonDisabled (st : State) (l : Loan) : bool :=
  negb (statusIsActive (status l)) ||
  match isProcessingPayment st with
  | Some p => String.eqb p (loanId l)
  | None => false
  end.

(** The same loan with another status, and a state whose loans all get the
    status chosen by [f]: used to state that a decision does not read the
    status field. *)
Definition withStatus (s : LoanStatus) (l : Loan) : Loan :=
  {| loanId := loanId l;
     principalAmount := principalAmount l;
     interestRate := interestRate l;
     tenure := tenure l;
     emiAmount := emiAmount l;
     remainingPrincipal := remainingPrincipal l;
     paidInstallments := paidInstallments l;
     nextDueDate := nextDueDate l;
     createdAt := createdAt l;
     status := s |}.

Definition restatus (f : Loan -> LoanStatus) (st : State) : State :=
  {| user := user st;
     loans := option_map (map (fun l => withStatus (f l) l)) (loans st);
     installmentsPaid := installmentsPaid st;
     isProcessingPayment := isProcessingPayment st |}.

End Dashboard.

(** ** Sample data *)

Module Samples.
Import JsNum JsDate LendingRecords Dashboard.

Definition asha : User := mkUser "u1" "Asha".

(** A loan of 120000 at 12% a year over 12 months, just created, first
    installment due on 2024-01-31. *)
Definition loanA : Loan :=
  {| loanId := "L1";
     principalAmount := 120000;
     interestRate := 12;
     tenure := 12;
     emiAmount := computeEmi 120000 12 12;
     remainingPrincipal := 120000;
     paidInstallments := 0;
     nextDueDate := Some (dateOf 2024 0 31);
     createdAt := dateOf 2023 11 31;
     status := active |}.

(** An interest-free loan of 3000 over 3 months. *)
Definition loanB : Loan :=
  {| loanId := "L2";
     principalAmount := 3000;
     interestRate := 0;
     tenure := 3;
     emiAmount := computeEmi 3000 0 3;
     remainingPrincipal := 3000;
     paidInstallments := 0;
     nextDueDate := Some (dateOf 2024 4 15);
     createdAt := dateOf 2024 3 15;
     status := active |}.

(** A loan that the backend reports as completed although only 3 of its
    12 installments are recorded. *)
Definition loanC : Loan :=
  {| loanId := "L3";
     principalAmount := 120000;
     interestRate := 12;
     tenure := 12;
     emiAmount := 10000;
     remainingPrincipal := 90000;
     paidInstallments := 3;
     nextDueDate := None;
     createdAt := dateOf 2023 11 31;
     status := completed |}.

(** The same loan with all 12 installments recorded. *)
Definition loanD : Loan :=
  {| loanId := "L4";
     principalAmount := 120000;
     interestRate := 12;
     tenure := 12;
     emiAmount := 10000;
     remainingPrincipal := 0;
     paidInstallments := 12;
     nextDueDate := None;
     createdAt := dateOf 2023 11 31;
     status := completed |}.

Definition dashboard : State :=
  {| user := Some asha;
     loans := Some [loanA; loanB; loanC; loanD];
     installmentsPaid := syncInstallments [loanA; loanB; loanC; loanD];
     isProcessingPayment := None |}.

End Samples.


(** ** Dashboard: the statistics effect, the payments filter, failed
    payments and the loan card *)

Module DashboardEffects.
Import JsNum JsDate LendingRecords Dashboard.

Record DashboardStats : Type := mkStats {
  totalLoans : Z;
  activeLoans : Z;
  totalPrincipal : Q;
  totalEMI : Q;
  completedLoans : Z
}.

(** [loan.status === 'active'] and [loan.status === 'completed'] *)
Definition hasStatus (s : LoanStatus) (l : Loan) : bool :=
  match status l, s with
  | active, active => true
  | completed, completed => true
  | _, _ => false
  end.

(** The statistics computed on the client from the loans. *)
Definition clientStats (ls : list Loan) : DashboardStats :=
  let activeLs := List.filter (hasStatus active) ls in
  let completedLs := List.filter (hasStatus completed) ls in
  {| totalLoans := Z.of_nat (length ls);
     activeLoans := Z.of_nat (length activeLs);
     totalPrincipal := fold_left (fun sum loan => sum + principalAmount loan) ls 0;
     totalEMI := fold_left (fun sum loan => sum + emiAmount loan) activeLs 0;
     completedLoans := Z.of_nat (length completedLs) |}.

(** The effect that runs when [loans] changes: the statistics are replaced
    only if [loans && loans.length > 0]. *)
Definition statsEffect (ls : option (list Loan)) (stats : DashboardStats)
  : DashboardStats :=
  match ls with
  | Some l => if (0 <? Z.of_nat (length l))%Z then clientStats l else stats
  | None => stats
  end.

(** The payments kept by [fetchPayments]: those whose loan is among the
    loans of the dashboard.  The [Payment] type is not part of the sources;
    it is a parameter, with the projection [payment.loanId]. *)
Definition userPayments {Payment : Type} (loanIdOf : Payment -> string)
           (allPayments : list Payment) (ls : list Loan) : list Payment :=
  List.filter
    (fun payment => existsb (fun loan => String.eqb (loanId loan) (loanIdOf payment)) ls)
    allPayments.

(** A payment attempt whose request fails: the handler returns, nothing is
    refetched. *)
Definition failOnce (st : State) (id : string) : State :=
  fst (handlePayment false st id).

Fixpoint failTimes (k : nat) (st : State) (id : string) : State :=
  match k with
  | O => st
  | S k' => failOnce (failTimes k' st id) id
  end.

(** The due date after [k] payments that are not the last one: [k] steps
    of [setMonth(getMonth() + 1)] from the base date. *)
Fixpoint dueAfter (k : nat) (t : Z) : Z :=
  match k with
  | O => t
  | S k' => setMonth (dueAfter k' t) (getMonth (dueAfter k' t) + 1)
  end.

(** The width of the progress bar of a loan card, in percent. *)
Definition progressWidth (st : State) (l : Loan) : Q :=
  inject_Z (alreadyPaidOf st (loanId l)) / inject_Z (tenure l) * 100.

(** The whole call [await handlePayment(loanId)]: the handler, and the
    [refetch()] it awaits when the request was accepted (with the
    synchronising effect that follows the new loans). *)
Definition handlePaymentCall (responseOk : bool) (st : State) (id : string) : State :=
  match handlePayment responseOk st id with
  | (st', Paid b) => refetch id b st'
  | (st', _) => st'
  end.

(** The synchronising effect on its own, as it runs whenever [loans] is
    set: [if (loans) { ... setInstallmentsPaid(initial) }]. *)
Definition resync (st : State) : State :=
  match loans st with
  | Some ls =>
    {| user := user st; loans := Some ls;
       installmentsPaid := syncInstallments ls;
       isProcessingPayment := isProcessingPayment st |}
  | None => st
  end.

(** The states the dashboard can get into from [st0]: by payment attempts
    on any loan, accepted or failed, and by the synchronising effect. *)
Inductive reachableFrom (st0 : State) : State -> Prop :=
| reach_start : reachableFrom st0 st0
| reach_accepted (st : State) (id : string) :
    reachableFrom st0 st -> reachableFrom st0 (payOnce st id)
| reach_failed (st : State) (id : string) :
    reachableFrom st0 st -> reachableFrom st0 (failOnce st id)
| reach_resync (st : State) :
    reachableFrom st0 st -> reachableFrom st0 (resync st).

(** What stays true of loan [id] in every reachable state: once its
    status is completed, the recorded count and the [paidInstallments] of
    every loan carrying that id have reached the tenure. *)
Definition terminalInv (u : User) (id : string) (st : State) : Prop :=
  user st = Some u /\
  exists ls l,
    loans st = Some ls /\ findLoan ls id = Some l /\
    (status l = completed ->
     (tenure l <= alreadyPaidOf st id)%Z /\
     forall x, In x ls -> loanId x = id -> (tenure l <= paidInstallments x)%Z).

End DashboardEffects.

(** ** LendingRecords: the stored borrowers and the EMI preview *)

Module BorrowerList.
Import JsNum LendingRecords.

(** A borrower record; [b_emi] is [None] when the stored record has no
    numeric [emi]. *)
Record Borrower : Type := mkBorrower {
  b_id : string;
  b_name : string;
  b_email : string;
  b_principalAmount : Q;
  b_interestRate : Q;
  b_tenure : Z;
  b_emi : option Q;
  b_createdAt : string
}.

(** The normalisation applied to each record read from local storage:
    [typeof b.emi === 'number' ? b.emi : computeEmi(...)]. *)
Definition normalizeBorrower (b : Borrower) : Borrower :=
  {| b_id := b_id b;
     b_name := b_name b;
     b_email := b_email b;
     b_principalAmount := b_principalAmount b;
     b_interestRate := b_interestRate b;
     b_tenure := b_tenure b;
     b_emi := Some (match b_emi b with
                    | Some e => e
                    | None => computeEmi (b_principalAmount b) (b_interestRate b)
                                         (b_tenure b)
                    end);
     b_createdAt := b_createdAt b |}.

Definition loadBorrowers (saved : list Borrower) : list Borrower :=
  map normalizeBorrower saved.

(** Truthiness of a text: the empty text is falsy. *)
Definition nonEmpty (s : string) : bool :=
  match s with
  | EmptyString => false
  | String _ _ => true
  end.

(** [x || 0] on an amount. *)
Definition orZeroQ (x : Q) : Q := if Qeq_bool x 0 then 0 else x.

(** [computedEmiPreview]: [null] while all five fields are empty, else the
    EMI of the numbers typed so far. *)
Definition computedEmiPreview (borrowerName borrowerEmail : string)
           (principalAmount interestRate : option Q) (tenure : option Z)
  : option Q :=
  if nonEmpty borrowerName || nonEmpty borrowerEmail
     || negb (emptyText principalAmount) || negb (emptyText interestRate)
     || negb (emptyText tenure)
  then Some (computeEmi (orZeroQ (NumberQ principalAmount))
                        (orZeroQ (NumberQ interestRate))
                        (orZero (NumberZ tenure)))
  else None.

(** What the expression
    [{computedEmiPreview && computedEmiPreview > 0 && (<div>...</div>)}]
    puts on the page: nothing for [null] and for [false] (a negative
    value), the text "0" when the preview is the number [0] (the
    expression is then that number, which React renders), and the
    'Calculated EMI' block with the amount when it is positive. *)
Inductive Rendered : Type :=
| RendersNothing
| RendersZeroText
| RendersEmiBlock (amount : Q).

Definition previewRendered (preview : option Q) : Rendered :=
  match preview with
  | None => RendersNothing
  | Some e =>
    if Qeq_bool e 0 then RendersZeroText
    else if Qlt_bool 0 e then RendersEmiBlock e
    else RendersNothing
  end.

(** Whether the 'Calculated EMI' block is on the page. *)
Definition previewShown (preview : option Q) : bool :=
  match previewRendered preview with
  | RendersEmiBlock _ => true
  | _ => false
  end.

End BorrowerList.

(** ** The payment handler in an arbitrary time zone

    [Date.prototype.getMonth] and [setMonth] work on local time:
    [LocalTime(t) = t + LocalTZA(t, true)] going in and
    [UTC(t) = t - LocalTZA(t, false)] coming back.  A zone is its
    [LocalTZA]; [JsDate.getMonth], [JsDate.setMonth] and
    [Dashboard.handlePayment] are the instance with offset zero. *)

Module ZonedDashboard.
Import JsNum JsDate LendingRecords Dashboard.
Local Open Scope Z_scope.

Record Zone : Type := mkZone { LocalTZA : Z -> bool -> Z }.

Definition LocalTime (z : Zone) (t : Z) : Z := t + LocalTZA z t true.
Definition UTC (z : Zone) (t : Z) : Z := t - LocalTZA z t false.

(** A zone with a constant offset (in milliseconds), and UTC itself. *)
Definition fixedZone (offset : Z) : Zone := mkZone (fun _ _ => offset).
Definition utcZone : Zone := fixedZone 0.

Definition getMonthIn (z : Zone) (t : Z) : Z := MonthFromTime (LocalTime z t).

Definition setMonthIn (z : Zone) (t month : Z) : Z :=
  let tl := LocalTime z t in
  UTC z (MakeDate (MakeDay (YearFromTime tl) month (DateFromTime tl))
                  (TimeWithinDay tl)).

Definition nextDueIn (z : Zone) (l : Loan) : Z :=
  setMonthIn z (baseDate l) (getMonthIn z (baseDate l) + 1).

Definition payBodyIn (z : Zone) (u : User) (alreadyPaid : Z) (l : Loan) : PayBody :=
  let installments := (alreadyPaid + 1)%Z in
  let isCompleted := (installments >=? tenure l)%Z in
  {| body_userId := user_id u;
     body_paidInstallments := installments;
     body_remainingPrincipal := newPrincipal l;
     body_nextDueDate := if isCompleted then None else Some (nextDueIn z l);
     body_status := if isCompleted then completed else active |}.

Definition handlePaymentIn (z : Zone) (responseOk : bool) (st : State) (id : string)
  : State * Outcome :=
  match user st, loans st with
  | Some u, Some ls =>
    let st1 := setProcessing st (Some id) in
    match findLoan ls id with
    | None => (setProcessing st1 None, LoanNotFound)
    | Some currentLoan =>
      let alreadyPaid := alreadyPaidOf st1 id in
      if (alreadyPaid >=? tenure currentLoan)%Z
      then (setProcessing st1 None, AlreadyCompleted)
      else
        let body := payBodyIn z u alreadyPaid currentLoan in
        let st2 :=
          setInstallmentsPaid st1
            (<[id := body_paidInstallments body]> (installmentsPaid st1)) in
        (setProcessing st2 None,
         if responseOk then Paid body else PaymentFailed body)
    end
  | _, _ => (st, NotReady)
  end.

Definition payOnceIn (z : Zone) (st : State) (id : string) : State :=
  match handlePaymentIn z true st id with
  | (st', Paid b) => refetch id b st'
  | (st', _) => st'
  end.

Fixpoint payTimesIn (z : Zone) (k : nat) (st : State) (id : string) : State :=
  match k with
  | O => st
  | S k' => payOnceIn z (payTimesIn z k' st id) id
  end.

(** The loan after [k] accepted attempts, as [Dashboard.loanAfter]. *)
Fixpoint loanAfterIn (z : Zone) (u : User) (id : string) (l0 : Loan) (k : nat) : Loan :=
  match k with
  | O => l0
  | S k' =>
    let lk := loanAfterIn z u id l0 k' in
    if (Z.of_nat k' <? tenure l0)%Z
    then storePayment id (payBodyIn z u (Z.of_nat k') lk) lk
    else lk
  end.

(** The due date after [k] payments that are not the last one. *)
Fixpoint dueAfterIn (z : Zone) (k : nat) (t : Z) : Z :=
  match k with
  | O => t
  | S k' => setMonthIn z (dueAfterIn z k' t) (getMonthIn z (dueAfterIn z k' t) + 1)
  end.

End ZonedDashboard.

(** ** Theorems on the EMI computation *)

Module EmiFacts.
Import JsNum LendingRecords.

Lemma Qlt_bool_iff (a b : Q) : Qlt_bool a b = true <-> a < b.
Proof.
  unfold Qlt_bool. rewrite negb_true_iff.
  destruct (Qle_bool b a) eqn:E.
  - apply Qle_bool_iff in E. split; [discriminate | intros H; lra].
  - split; [intros _ | reflexivity].
    apply Qnot_le_lt. intros H. apply Qle_bool_iff in H. congruence.
Qed.

Lemma tenure_guard_false (n : Z) :
  (1 <= n)%Z -> (n =? 0)%Z || (n <=? 0)%Z = false.
Proof. intros H. apply orb_false_iff. split; [apply Z.eqb_neq | apply Z.leb_gt]; lia. Qed.

Lemma tenure_guard_true (n : Z) :
  (n <= 0)%Z -> (n =? 0)%Z || (n <=? 0)%Z = true.
Proof. intros H. apply orb_true_iff. right. apply Z.leb_le. exact H. Qed.

Lemma monthly_rate_1200 (ra : Q) : ra / (12 * 100) == ra / 1200.
Proof. field. Qed.

Lemma inject_Z_pos (n : Z) : (1 <= n)%Z -> 0 < inject_Z n.
Proof. intros H. change 0 with (inject_Z 0). rewrite <- Zlt_Qlt. lia. Qed.

(** With a positive monthly rate and at least one month, the growth factor
    exceeds one, so the annuity formula never divides by zero. *)
Lemma growth_gt_1 (r : Q) (n : Z) : 0 < r -> (1 <= n)%Z -> 1 < (1 + r) ^ n.
Proof. intros Hr Hn. apply Qpower_1_lt; [lra | lia]. Qed.

Lemma annuity_divisor_pos (r : Q) (n : Z) :
  0 < r -> (1 <= n)%Z -> 0 < (1 + r) ^ n - 1.
Proof. intros Hr Hn. pose proof (growth_gt_1 r n Hr Hn). lra. Qed.

(** The three branches of [computeEmi], one equation each. *)
Lemma computeEmi_guard (p ra : Q) (n : Z) :
  (n <= 0)%Z -> computeEmi p ra n = 0.
Proof. intros H. unfold computeEmi. now rewrite tenure_guard_true. Qed.

Lemma computeEmi_zero_rate (p ra : Q) (n : Z) :
  (1 <= n)%Z -> ra / (12 * 100) == 0 ->
  computeEmi p ra n = p / inject_Z n.
Proof.
  intros Hn Hr. unfold computeEmi. rewrite tenure_guard_false by exact Hn.
  apply Qeq_bool_iff in Hr. now rewrite Hr.
Qed.

Lemma computeEmi_annuity (p ra : Q) (n : Z) :
  (1 <= n)%Z -> ~ ra / (12 * 100) == 0 ->
  computeEmi p ra n =
  (p * (ra / (12 * 100)) * (1 + ra / (12 * 100)) ^ n)
  / ((1 + ra / (12 * 100)) ^ n - 1).
Proof.
  intros Hn Hr. unfold computeEmi. rewrite tenure_guard_false by exact Hn.
  destruct (Qeq_bool (ra / (12 * 100)) 0) eqn:E; [|reflexivity].
  apply Qeq_bool_iff in E. contradiction.
Qed.

(** C1. For a positive principal and a tenure of at least one month,
    [computeEmi] returns [principal / tenure] when the monthly rate
    [r = annualRate / 1200] is zero, and
    [principal * r * (1+r)^tenure / ((1+r)^tenure - 1)] when [r] is
    positive; in both cases the divisor is not zero. *)
Theorem computeEmi_formula (principal ra : Q) (tenure : Z) :
  0 < principal -> (1 <= tenure)%Z ->
  let r := ra / 1200 in
  (r == 0 ->
     ~ inject_Z tenure == 0 /\
     computeEmi principal ra tenure == principal / inject_Z tenure) /\
  (0 < r ->
     ~ (1 + r) ^ tenure - 1 == 0 /\
     computeEmi principal ra tenure ==
     principal * r * (1 + r) ^ tenure / ((1 + r) ^ tenure - 1)).
Proof.
  intros Hp Hn r. subst r. split; intros Hr.
  - split.
    + pose proof (inject_Z_pos tenure Hn). lra.
    + rewrite computeEmi_zero_rate; [reflexivity | exact Hn |].
      rewrite monthly_rate_1200. exact Hr.
  - split.
    + pose proof (annuity_divisor_pos _ tenure Hr Hn). lra.
    + rewrite computeEmi_annuity; [| exact Hn |].
      * rewrite monthly_rate_1200. reflexivity.
      * rewrite monthly_rate_1200. lra.
Qed.

Lemma computeEmi_formula_witness :
  computeEmi 12000 0 12 == 12000 / inject_Z 12 /\
  computeEmi 120000 12 12 ==
  120000 * (12 / 1200) * (1 + 12 / 1200) ^ 12 / ((1 + 12 / 1200) ^ 12 - 1).
Proof.
  split.
  - apply (computeEmi_formula 12000 0 12); [reflexivity | lia | reflexivity].
  - apply (computeEmi_formula 120000 12 12); [reflexivity | lia | reflexivity].
Defined.

(** C9. When the tenure is zero or negative, [computeEmi] returns [0]
    instead of signalling an error, whatever the principal and the rate. *)
Theorem computeEmi_nonpositive_tenure (p ra p' ra' : Q) (tenure : Z) :
  (tenure <= 0)%Z ->
  computeEmi p ra tenure = 0 /\
  computeEmi p ra tenure = computeEmi p' ra' tenure.
Proof.
  intros H. split.
  - now apply computeEmi_guard.
  - now rewrite !computeEmi_guard.
Qed.

Lemma computeEmi_nonpositive_tenure_witness :
  computeEmi 5000 10 (-3) = 0 /\
  computeEmi 5000 10 (-3) = computeEmi 70 (1 # 2) (-3).
Proof. apply (computeEmi_nonpositive_tenure 5000 10 70 (1 # 2) (-3)). lia. Defined.

(** C10. [computeEmi] is homogeneous in the principal over exact rational
    arithmetic: for a rate [r >= 0], a tenure [n >= 1] and a scalar
    [k >= 0], [computeEmi (k * p) r n = k * computeEmi p r n]. *)
Theorem computeEmi_homogeneous (k p ra : Q) (n : Z) :
  0 <= ra -> (1 <= n)%Z -> 0 <= k ->
  computeEmi (k * p) ra n == k * computeEmi p ra n.
Proof.
  intros Hra Hn Hk. unfold computeEmi.
  rewrite tenure_guard_false by exact Hn. cbv zeta.
  destruct (Qeq_bool (ra / (12 * 100)) 0) eqn:E; unfold Qdiv; ring.
Qed.

Lemma computeEmi_homogeneous_witness :
  computeEmi (3 * 40000) 12 12 == 3 * computeEmi 40000 12 12.
Proof.
  apply (computeEmi_homogeneous 3 40000 12 12); [discriminate | lia | discriminate].
Defined.

(** For valid terms the installment is a positive amount. *)
Lemma computeEmi_pos (p ra : Q) (n : Z) :
  0 < p -> 0 <= ra -> (1 <= n)%Z -> 0 < computeEmi p ra n.
Proof.
  intros Hp Hra Hn.
  destruct (Qeq_dec (ra / (12 * 100)) 0) as [Hz | Hnz].
  - rewrite computeEmi_zero_rate by assumption.
    apply Qlt_shift_div_l; [now apply inject_Z_pos | lra].
  - rewrite computeEmi_annuity by assumption.
    assert (Hr : 0 < ra / (12 * 100)).
    { assert (0 <= ra / (12 * 100)) by (apply Qle_shift_div_l; [reflexivity | lra]).
      lra. }
    pose proof (growth_gt_1 _ n Hr Hn) as Hg.
    apply Qlt_shift_div_l; [lra|].
    rewrite Qmult_0_l.
    apply Qmult_lt_0_compat; [apply Qmult_lt_0_compat; assumption | lra].
Qed.

Lemma addBorrower_guard_iff (p ra : Q) (n : Z) :
  Qle_bool p 0 || (n <=? 0)%Z || Qlt_bool ra 0 = true <->
  ((n <= 0)%Z \/ p <= 0 \/ ra < 0).
Proof.
  rewrite !orb_true_iff, Qle_bool_iff, Z.leb_le, Qlt_bool_iff. tauto.
Qed.

(** C5, as stated, does not hold of [computeEmi]: the function has no
    failure.  On a tenure of 0 it returns 0, on a negative principal a
    negative amount, on a negative rate an amount again; the stored-record
    path and the preview path hand it such terms unchecked and get the
    number back.  Only [addBorrower] refuses them. *)
Lemma computeEmi_accepts_invalid_terms :
  computeEmi 120000 12 0 == 0 /\
  computeEmi (-1200) 0 12 == -100 /\
  computeEmi 1200 (-12) 1 == 1188 /\
  BorrowerList.b_emi
    (BorrowerList.normalizeBorrower
       (BorrowerList.mkBorrower "1" "Ravi" "ravi@example.org" (-1200) 0 12 None ""))
  = Some (computeEmi (-1200) 0 12) /\
  BorrowerList.computedEmiPreview "" "" (Some (-1200)) (Some 0) (Some 12%Z)
  = Some (computeEmi (-1200) 0 12) /\
  addBorrower "Ravi" "ravi@example.org" (Some (-1200)) (Some 0) (Some 12%Z)
  = InvalidValues.
Proof.
  split; [reflexivity|]. split; [reflexivity|]. split; [reflexivity|].
  split; [reflexivity|]. split; reflexivity.
Qed.

(** C5 (amended). The refusal is made by [addBorrower], before it calls
    [computeEmi]: terms typed into a form whose name and email are not
    blank are refused with the 'Invalid Values' notice exactly when
    [tenureMonths <= 0], [principal <= 0] or [annualRatePercent < 0];
    all other terms yield an installment amount, the positive value of
    [computeEmi]. *)
Theorem addBorrower_invalid_iff (name email : string) (principal ra : Q) (months : Z) :
  blank name = false -> blank email = false ->
  (addBorrower name email (Some principal) (Some ra) (Some months) = InvalidValues
   <-> ((months <= 0)%Z \/ principal <= 0 \/ ra < 0)) /\
  (~ ((months <= 0)%Z \/ principal <= 0 \/ ra < 0) ->
   addBorrower name email (Some principal) (Some ra) (Some months)
   = BorrowerAdded (computeEmi principal ra months) /\
   0 < computeEmi principal ra months).
Proof.
  intros Hname Hemail.
  pose proof (addBorrower_guard_iff principal ra months) as G.
  unfold addBorrower. rewrite Hname, Hemail. cbn [orb emptyText NumberQ NumberZ].
  destruct (Qle_bool principal 0 || (months <=? 0)%Z || Qlt_bool ra 0) eqn:E.
  - split; [split; [intros _; now apply G | reflexivity]|].
    intros H. exfalso. apply H. now apply G.
  - split.
    + split; [discriminate|]. intros H. apply G in H. discriminate.
    + intros H. split; [reflexivity|].
      apply computeEmi_pos.
      * apply Qnot_le_lt. intros C. apply H. auto.
      * apply Qnot_lt_le. intros C. apply H. auto.
      * destruct (Z_le_gt_dec months 0) as [C|C]; [exfalso; apply H; auto | lia].
Qed.

Lemma addBorrower_invalid_iff_witness :
  addBorrower "Ravi" "ravi@example.org" (Some 120000) (Some 12) (Some 0%Z)
  = InvalidValues /\
  addBorrower "Ravi" "ravi@example.org" (Some 120000) (Some 12) (Some 12%Z)
  = BorrowerAdded (computeEmi 120000 12 12).
Proof.
  split.
  - apply (addBorrower_invalid_iff "Ravi" "ravi@example.org" 120000 12 0);
      [reflexivity | reflexivity |]. left. lia.
  - apply (addBorrower_invalid_iff "Ravi" "ravi@example.org" 120000 12 12);
      [reflexivity | reflexivity |].
    intros [H | [H | H]]; [lia | exact (H eq_refl) | discriminate H].
Defined.

(** An empty field ends in 'Missing Fields', before the values are looked
    at; this includes an interest field left empty. *)
Example addBorrower_missing_rate :
  addBorrower "Ravi" "ravi@example.org" (Some 120000) None (Some 12%Z)
  = MissingFields.
Proof. reflexivity. Qed.

End EmiFacts.

(** ** Calendar facts *)

Module DateFacts.
Import JsDate.
Local Open Scope Z_scope.

Ltac split_eqb :=
  repeat match goal with
         | |- context [?a =? ?b] => destruct (Z.eqb_spec a b)
         | H : context [?a =? ?b] |- _ => destruct (Z.eqb_spec a b)
         | |- context [?a <=? ?b] => destruct (Z.leb_spec a b)
         | H : context [?a <=? ?b] |- _ => destruct (Z.leb_spec a b)
         | |- context [?a <? ?b] => destruct (Z.ltb_spec a b)
         | H : context [?a <? ?b] |- _ => destruct (Z.ltb_spec a b)
         end; cbn [orb andb negb] in *.

Lemma yoe_recover (yoe doy : Z) :
  0 <= yoe < 400 -> 0 <= doy <= 365 -> (doy = 365 -> leapAfter yoe) ->
  let doe := yoe * 365 + yoe / 4 - yoe / 100 + doy in
  0 <= doe < 146097 /\
  (doe - doe / 1460 + doe / 36524 - doe / 146096) / 365 = yoe.
Proof.
  intros Hy Hd Hl doe. subst doe. unfold leapAfter in *.
  Z.div_mod_to_equations. lia.
Qed.

Lemma doe_split (doe : Z) :
  0 <= doe < 146097 ->
  let yoe := (doe - doe / 1460 + doe / 36524 - doe / 146096) / 365 in
  let doy := doe - (365 * yoe + yoe / 4 - yoe / 100) in
  0 <= yoe < 400 /\ 0 <= doy <= 365 /\ (doy = 365 -> leapAfter yoe).
Proof.
  intros H yoe doy. subst doy yoe. unfold leapAfter.
  Z.div_mod_to_equations. lia.
Qed.

Lemma doy_split (doy : Z) :
  0 <= doy <= 365 ->
  let mp := (5 * doy + 2) / 153 in
  let d := doy - (153 * mp + 2) / 5 + 1 in
  0 <= mp <= 11 /\ 1 <= d <= mpLength mp /\
  (mp = 11 -> d = 29 -> doy = 365).
Proof.
  intros H mp d. subst d.
  assert (Hmp : mp = (5 * doy + 2) / 153) by reflexivity. clearbody mp.
  unfold mpLength. split_eqb; Z.div_mod_to_equations; lia.
Qed.

Lemma doy_recover (mp d : Z) :
  0 <= mp <= 11 -> 1 <= d <= mpLength mp ->
  let doy := (153 * mp + 2) / 5 + d - 1 in
  0 <= doy <= 365 /\ (doy = 365 -> mp = 11 /\ d = 29) /\
  (5 * doy + 2) / 153 = mp /\ doy - (153 * mp + 2) / 5 + 1 = d.
Proof.
  intros Hm Hd doy. subst doy. unfold mpLength in Hd.
  split_eqb; Z.div_mod_to_equations; lia.
Qed.

(** The calendar date of a day number given by its era, year of the era,
    month counted from March and day of the month. *)
Lemma civilFromDays_compose (era yoe mp d : Z) :
  0 <= yoe < 400 -> 0 <= mp <= 11 -> 1 <= d <= mpLength mp ->
  (mp = 11 -> d = 29 -> leapAfter yoe) ->
  civilFromDays (era * 146097
                 + (yoe * 365 + yoe / 4 - yoe / 100 + ((153 * mp + 2) / 5 + d - 1))
                 - 719468)
  = mkCivil (if mp <? 10 then yoe + era * 400 else yoe + era * 400 + 1)
            (if mp <? 10 then mp + 2 else mp - 10) d.
Proof.
  intros Hy Hm Hd Hleap.
  destruct (doy_recover mp d Hm Hd) as (Hdoy & H365 & Hmp & Hdd).
  set (doy := (153 * mp + 2) / 5 + d - 1) in *.
  assert (Hl : doy = 365 -> leapAfter yoe)
    by (intros E; destruct (H365 E); auto).
  destruct (yoe_recover yoe doy Hy Hdoy Hl) as (Hdoe & Hyoe).
  set (doe := yoe * 365 + yoe / 4 - yoe / 100 + doy) in *.
  unfold civilFromDays.
  replace (era * 146097 + doe - 719468 + 719468) with (doe + era * 146097) by ring.
  rewrite Z.div_add, (Z.div_small doe) by lia.
  replace (doe + era * 146097 - (0 + era) * 146097) with doe by ring.
  cbv zeta. rewrite Hyoe.
  replace (doe - (365 * yoe + yoe / 4 - yoe / 100)) with doy by (subst doe; ring).
  rewrite Hmp, Hdd.
  destruct (Z.ltb_spec mp 10) as [C | C].
  - destruct (Z.leb_spec (mp + 2) 1); [lia|]. f_equal; ring.
  - destruct (Z.leb_spec (mp - 10) 1); [|lia]. f_equal; ring.
Qed.

Lemma isLeapYear_leapAfter (era yoe : Z) :
  0 <= yoe < 400 ->
  (isLeapYear (era * 400 + yoe + 1) = true <-> leapAfter yoe).
Proof.
  intros H. unfold isLeapYear, leapAfter.
  rewrite orb_true_iff, andb_true_iff, negb_true_iff, !Z.eqb_eq, Z.eqb_neq.
  Z.div_mod_to_equations. lia.
Qed.

Lemma daysInMonth_mpLength (y m : Z) :
  0 <= m <= 11 ->
  daysInMonth y m <= mpLength (if m <=? 1 then m + 10 else m - 2).
Proof.
  intros Hm.
  assert (C : m = 0 \/ m = 1 \/ m = 2 \/ m = 3 \/ m = 4 \/ m = 5 \/ m = 6 \/
              m = 7 \/ m = 8 \/ m = 9 \/ m = 10 \/ m = 11) by lia.
  unfold daysInMonth, mpLength.
  repeat (destruct C as [-> | C];
          [destruct (isLeapYear y); vm_compute; discriminate |]).
  subst m. destruct (isLeapYear y); vm_compute; discriminate.
Qed.

Lemma civil_roundtrip (y m d : Z) :
  0 <= m <= 11 -> 1 <= d <= daysInMonth y m ->
  civilFromDays (daysFromCivil y m d) = mkCivil y m d.
Proof.
  intros Hm Hd. unfold daysFromCivil. cbv zeta.
  set (y' := if m <=? 1 then y - 1 else y).
  set (mp := if m <=? 1 then m + 10 else m - 2).
  assert (Hyoe : 0 <= y' - y' / 400 * 400 < 400) by (Z.div_mod_to_equations; lia).
  assert (Hmp : 0 <= mp <= 11) by (subst mp; destruct (Z.leb_spec m 1); lia).
  assert (Hlen : 1 <= d <= mpLength mp).
  { pose proof (daysInMonth_mpLength y m Hm) as Hle. fold mp in Hle. lia. }
  rewrite civilFromDays_compose; try assumption.
  - subst mp y'. destruct (Z.leb_spec m 1).
    + destruct (Z.ltb_spec (m + 10) 10); [lia|]. f_equal; lia.
    + destruct (Z.ltb_spec (m - 2) 10); [|lia]. f_equal; lia.
  - intros E11 E29.
    assert (m = 1) by (subst mp; destruct (Z.leb_spec m 1); lia). subst m.
    subst y'. change (if 1 <=? 1 then y - 1 else y) with (y - 1) in *.
    apply (isLeapYear_leapAfter ((y - 1) / 400)); [exact Hyoe|].
    replace ((y - 1) / 400 * 400 + ((y - 1) - (y - 1) / 400 * 400) + 1) with y by ring.
    unfold daysInMonth in Hd. cbn in Hd. destruct (isLeapYear y); [reflexivity | lia].
Qed.

(** Every day number is a date of the calendar. *)
Lemma civilFromDays_valid (n : Z) : validCivil (civilFromDays n) = true.
Proof.
  unfold civilFromDays. cbv zeta.
  set (z := n + 719468). set (era := z / 146097).
  assert (Hdoe : 0 <= z - era * 146097 < 146097)
    by (subst era; Z.div_mod_to_equations; lia).
  set (doe := z - era * 146097) in *.
  destruct (doe_split doe Hdoe) as (Hyoe & Hdoy & Hleap).
  set (yoe := (doe - doe / 1460 + doe / 36524 - doe / 146096) / 365) in *.
  set (doy := doe - (365 * yoe + yoe / 4 - yoe / 100)) in *.
  destruct (doy_split doy Hdoy) as (Hmp & Hd & H29).
  set (mp := (5 * doy + 2) / 153) in *.
  set (d := doy - (153 * mp + 2) / 5 + 1) in *.
  unfold validCivil. cbn [cYear cMonth cDate].
  rewrite !andb_true_iff, !Z.leb_le.
  destruct (Z.ltb_spec mp 10) as [C | C].
  - destruct (Z.leb_spec (mp + 2) 1); [lia|].
    repeat split; try lia.
    unfold daysInMonth, mpLength in *. split_eqb; lia.
  - destruct (Z.leb_spec (mp - 10) 1); [|lia].
    repeat split; try lia.
    unfold daysInMonth.
    destruct (Z.eqb_spec (mp - 10) 1) as [E | E].
    + assert (E11 : mp = 11) by lia.
      destruct (isLeapYear (yoe + era * 400 + 1)) eqn:L.
      * unfold mpLength in Hd. split_eqb; lia.
      * assert (d <> 29); [|unfold mpLength in Hd; split_eqb; lia].
        intros E29. specialize (Hleap (H29 E11 E29)).
        apply (isLeapYear_leapAfter era yoe Hyoe) in Hleap.
        replace (era * 400 + yoe + 1) with (yoe + era * 400 + 1) in Hleap by ring.
        congruence.
    + unfold mpLength in Hd. split_eqb; lia.
Qed.

(** The day number is linear in the day of the month. *)
Lemma daysFromCivil_date (y m d : Z) :
  daysFromCivil y m d = daysFromCivil y m 1 + (d - 1).
Proof. unfold daysFromCivil. cbv zeta. ring. Qed.

Lemma nextMonth_range (y m : Z) : 0 <= snd (nextMonth y m) <= 11.
Proof. unfold nextMonth. cbn [snd]. pose proof (Z.mod_pos_bound (m + 1) 12). lia. Qed.

Lemma daysInMonth_range (y m : Z) : 28 <= daysInMonth y m <= 31.
Proof. unfold daysInMonth. destruct (isLeapYear y); split_eqb; lia. Qed.

(** The first of the next month comes [daysInMonth] days after the first
    of the month. *)
Lemma month_length (y m : Z) :
  0 <= m <= 11 ->
  daysFromCivil (fst (nextMonth y m)) (snd (nextMonth y m)) 1
  = daysFromCivil y m 1 + daysInMonth y m.
Proof.
  intros Hm. unfold nextMonth. cbn [fst snd].
  assert (C : m = 0 \/ m = 1 \/ m = 2 \/ m = 3 \/ m = 4 \/ m = 5 \/ m = 6 \/
              m = 7 \/ m = 8 \/ m = 9 \/ m = 10 \/ m = 11) by lia.
  unfold daysFromCivil, daysInMonth, isLeapYear.
  repeat (destruct C as [-> | C];
          [ cbn [Z.add Z.leb Z.eqb Z.compare Pos.compare Pos.compare_cont
                 Pos.eqb Pos.add Pos.succ orb];
            change (1 / 12) with 0; change (2 / 12) with 0;
            split_eqb; Z.div_mod_to_equations; lia |]).
  subst m. cbn. split_eqb; Z.div_mod_to_equations; lia.
Qed.

Lemma Day_MakeDate (n s : Z) : 0 <= s < msPerDay -> Day (MakeDate n s) = n.
Proof.
  intros H. unfold Day, MakeDate, msPerDay in *.
  rewrite Z.add_comm, Z.div_add by lia. rewrite Z.div_small by lia. lia.
Qed.

Lemma TimeWithinDay_range (t : Z) : 0 <= TimeWithinDay t < msPerDay.
Proof. unfold TimeWithinDay. apply Z.mod_pos_bound. reflexivity. Qed.

Lemma TimeWithinDay_MakeDate (n s : Z) :
  0 <= s < msPerDay -> TimeWithinDay (MakeDate n s) = s.
Proof.
  intros H. unfold TimeWithinDay, MakeDate, msPerDay in *.
  rewrite Z.add_comm, Z_mod_plus_full. apply Z.mod_small. lia.
Qed.

(** What [d.setMonth(d.getMonth() + 1)] does to a date [y-m-d]: the time
    of day is kept; when the next month has a day [d] the result is that
    day of the next month; when it is shorter, the result is not its last
    day but runs over into the month after it by the excess days. *)
Theorem setMonth_next_month (t : Z) :
  let c := civilFromDays (Day t) in
  let y' := fst (nextMonth (cYear c) (cMonth c)) in
  let m' := snd (nextMonth (cYear c) (cMonth c)) in
  let t' := setMonth t (getMonth t + 1) in
  TimeWithinDay t' = TimeWithinDay t /\
  (cDate c <= daysInMonth y' m' ->
   civilFromDays (Day t') = mkCivil y' m' (cDate c)) /\
  (daysInMonth y' m' < cDate c ->
   civilFromDays (Day t')
   = mkCivil (fst (nextMonth y' m')) (snd (nextMonth y' m'))
             (cDate c - daysInMonth y' m')).
Proof.
  intros c y' m' t'.
  pose proof (civilFromDays_valid (Day t)) as Hv. fold c in Hv.
  unfold validCivil in Hv. rewrite !andb_true_iff, !Z.leb_le in Hv.
  destruct Hv as (((Hm0 & Hm1) & Hd1) & Hd2).
  pose proof (daysInMonth_range (cYear c) (cMonth c)) as Hr.
  pose proof (daysInMonth_range y' m') as Hr'.
  pose proof (nextMonth_range (cYear c) (cMonth c)) as Hm'. fold m' in Hm'.
  pose proof (TimeWithinDay_range t) as Hs.
  assert (Ht' : t' = MakeDate (daysFromCivil y' m' (cDate c)) (TimeWithinDay t)).
  { subst t'. unfold setMonth, getMonth, MakeDay, YearFromTime, MonthFromTime,
      DateFromTime. fold c. cbv zeta.
    rewrite (daysFromCivil_date y' m' (cDate c)).
    subst y' m'. unfold nextMonth. cbn [fst snd]. f_equal.
    symmetry. apply Z.add_sub_assoc. }
  rewrite Ht'. rewrite Day_MakeDate, TimeWithinDay_MakeDate by exact Hs.
  split; [reflexivity|]. split; intros Hfit.
  - apply civil_roundtrip; lia.
  - rewrite daysFromCivil_date.
    replace (daysFromCivil y' m' 1 + (cDate c - 1))
      with (daysFromCivil y' m' 1 + daysInMonth y' m'
            + (cDate c - daysInMonth y' m' - 1))
      by (generalize (daysFromCivil y' m' 1) (daysInMonth y' m'); intros; lia).
    rewrite <- month_length by exact Hm'.
    rewrite <- daysFromCivil_date.
    pose proof (daysInMonth_range (fst (nextMonth y' m')) (snd (nextMonth y' m'))).
    apply civil_roundtrip; [apply nextMonth_range | lia].
Qed.

Example setMonth_jan31_2024 :
  civilFromDays (Day (setMonth (dateOf 2024 0 31) (getMonth (dateOf 2024 0 31) + 1)))
  = mkCivil 2024 2 2.
Proof. reflexivity. Qed.

Example setMonth_jan15_2024 :
  setMonth (dateOf 2024 0 15) (getMonth (dateOf 2024 0 15) + 1) = dateOf 2024 1 15.
Proof. reflexivity. Qed.

Example setMonth_dec15_2023 :
  setMonth (dateOf 2023 11 15) (getMonth (dateOf 2023 11 15) + 1) = dateOf 2024 0 15.
Proof. reflexivity. Qed.

End DateFacts.

(** ** Theorems on the payment handler *)

Module PaymentFacts.
Import JsNum JsDate LendingRecords Dashboard.

(** *** The two ways a call on a known loan ends *)

Lemma handlePayment_rejected (ok : bool) (st : State) (id : string)
      (u : User) (ls : list Loan) (l : Loan) :
  user st = Some u -> loans st = Some ls -> findLoan ls id = Some l ->
  (tenure l <= alreadyPaidOf st id)%Z ->
  handlePayment ok st id = (setProcessing st None, AlreadyCompleted).
Proof.
  intros Hu Hl Hf Hc. unfold handlePayment. rewrite Hu, Hl, Hf.
  change (alreadyPaidOf (setProcessing st (Some id)) id) with (alreadyPaidOf st id).
  destruct (Z.geb_spec (alreadyPaidOf st id) (tenure l)) as [_ | C]; [reflexivity | lia].
Qed.

Lemma handlePayment_processed (ok : bool) (st : State) (id : string)
      (u : User) (ls : list Loan) (l : Loan) :
  user st = Some u -> loans st = Some ls -> findLoan ls id = Some l ->
  (alreadyPaidOf st id < tenure l)%Z ->
  let body := payBody u (alreadyPaidOf st id) l in
  handlePayment ok st id =
  ({| user := Some u; loans := Some ls;
      installmentsPaid := <[id := (alreadyPaidOf st id + 1)%Z]> (installmentsPaid st);
      isProcessingPayment := None |},
   if ok then Paid body else PaymentFailed body).
Proof.
  intros Hu Hl Hf Hc body. unfold handlePayment. rewrite Hu, Hl, Hf.
  change (alreadyPaidOf (setProcessing st (Some id)) id) with (alreadyPaidOf st id).
  destruct (Z.geb_spec (alreadyPaidOf st id) (tenure l)) as [C | _]; [lia |].
  unfold setProcessing, setInstallmentsPaid. cbn. rewrite Hu, Hl. reflexivity.
Qed.

(** C2. A payment that is applied (the guard lets it through) to a loan
    with remaining principal [p], monthly rate [r = interestRate / 1200]
    and installment [E] computes the interest component [p * r], the
    principal component [E - p * r], and posts
    [max 0 (p - (E - p * r))] as the new remaining principal. *)
Theorem payment_split (st : State) (id : string)
        (u : User) (ls : list Loan) (l : Loan) :
  user st = Some u -> loans st = Some ls -> findLoan ls id = Some l ->
  (alreadyPaidOf st id < tenure l)%Z ->
  let p := remainingPrincipal l in
  let r := interestRate l / 1200 in
  let E := emiAmount l in
  interestPaid l = p * r /\
  principalPaid l = E - interestPaid l /\
  exists body,
    snd (handlePayment true st id) = Paid body /\
    body_remainingPrincipal body = Qmax 0 (p - principalPaid l) /\
    body_remainingPrincipal body = Qmax 0 (p - (E - p * r)).
Proof.
  intros Hu Hl Hf Hc p r E.
  split; [reflexivity|]. split; [reflexivity|].
  exists (payBody u (alreadyPaidOf st id) l). split.
  - now rewrite (handlePayment_processed true st id u ls l Hu Hl Hf Hc).
  - split; reflexivity.
Qed.

Lemma payment_split_witness :
  exists body,
    snd (handlePayment true Samples.dashboard "L1") = Paid body /\
    body_remainingPrincipal body =
    Qmax 0 (120000 - (computeEmi 120000 12 12 - 120000 * (12 / 1200))).
Proof.
  destruct (payment_split Samples.dashboard "L1" Samples.asha
              [Samples.loanA; Samples.loanB; Samples.loanC; Samples.loanD]
              Samples.loanA)
    as (_ & _ & body & Hb & _ & Hr);
    [reflexivity | reflexivity | reflexivity | vm_compute; reflexivity |].
  exists body. split; [exact Hb | exact Hr].
Defined.

(** *** The guard reads the recorded count, not the status *)

Lemma findLoan_restatus (f : Loan -> LoanStatus) (ls : list Loan) (id : string) :
  findLoan (map (fun l => withStatus (f l) l) ls) id
  = option_map (fun l => withStatus (f l) l) (findLoan ls id).
Proof.
  unfold findLoan. induction ls as [| a ls IH]; [reflexivity|].
  cbn. destruct (String.eqb (loanId a) id); [reflexivity | exact IH].
Qed.

Lemma guard_outcome (ok : bool) (st : State) (id : string)
      (u : User) (ls : list Loan) (l : Loan) :
  user st = Some u -> loans st = Some ls -> findLoan ls id = Some l ->
  (snd (handlePayment ok st id) = AlreadyCompleted
   <-> (tenure l <= alreadyPaidOf st id)%Z).
Proof.
  intros Hu Hl Hf. split.
  - intros H. destruct (Z_le_gt_dec (tenure l) (alreadyPaidOf st id)) as [C | C];
      [exact C | exfalso].
    rewrite (handlePayment_processed ok st id u ls l Hu Hl Hf) in H by lia.
    destruct ok; discriminate H.
  - intros H. now rewrite (handlePayment_rejected ok st id u ls l Hu Hl Hf H).
Qed.

(** C8. The guard of [handlePayment] rejects the payment as already
    completed if and only if the recorded paid-installment count is at
    least the tenure of the loan.  The status field plays no part: giving
    the loans any other statuses leaves the decision as it is, and a loan
    whose status is completed while its count is below the tenure goes
    through the ordinary payment path. *)
Theorem guard_decided_by_count (ok : bool) (st : State) (id : string)
        (u : User) (ls : list Loan) (l : Loan) :
  user st = Some u -> loans st = Some ls -> findLoan ls id = Some l ->
  (snd (handlePayment ok st id) = AlreadyCompleted
   <-> (tenure l <= alreadyPaidOf st id)%Z) /\
  (forall f : Loan -> LoanStatus,
     snd (handlePayment ok (restatus f st) id) = AlreadyCompleted
     <-> snd (handlePayment ok st id) = AlreadyCompleted) /\
  (status l = completed -> (alreadyPaidOf st id < tenure l)%Z ->
   snd (handlePayment true st id) = Paid (payBody u (alreadyPaidOf st id) l)).
Proof.
  intros Hu Hl Hf. split; [| split].
  - exact (guard_outcome ok st id u ls l Hu Hl Hf).
  - intros f.
    rewrite (guard_outcome ok st id u ls l Hu Hl Hf).
    rewrite (guard_outcome ok (restatus f st) id u
               (map (fun x => withStatus (f x) x) ls) (withStatus (f l) l)).
    + reflexivity.
    + exact Hu.
    + cbn. now rewrite Hl.
    + rewrite findLoan_restatus, Hf. reflexivity.
  - intros _ Hc.
    now rewrite (handlePayment_processed true st id u ls l Hu Hl Hf Hc).
Qed.

Lemma guard_decided_by_count_witness :
  snd (handlePayment true Samples.dashboard "L4") = AlreadyCompleted /\
  snd (handlePayment true Samples.dashboard "L3")
  = Paid (payBody Samples.asha 3 Samples.loanC).
Proof.
  split.
  - apply (guard_decided_by_count true Samples.dashboard "L4" Samples.asha
             [Samples.loanA; Samples.loanB; Samples.loanC; Samples.loanD]
             Samples.loanD); [reflexivity | reflexivity | reflexivity |].
    vm_compute. discriminate.
  - apply (guard_decided_by_count true Samples.dashboard "L3" Samples.asha
             [Samples.loanA; Samples.loanB; Samples.loanC; Samples.loanD]
             Samples.loanC); [reflexivity | reflexivity | reflexivity | reflexivity |].
    vm_compute. reflexivity.
Defined.

(** *** Completed loans *)

(** The status gates the Pay button: the button of a loan whose status
    is completed is disabled.  ([TerminalFacts] shows that the handler
    itself rejects such a loan in every state the dashboard reaches.) *)
Lemma completed_button_disabled (st : State) (l : Loan) :
  status l = completed -> payButtonDisabled st l = true.
Proof. intros H. unfold payButtonDisabled. now rewrite H. Qed.

(** *** The state after an attempt, refetch included *)

(** On an integer, [x || 0] is [x]. *)
Lemma orZero_id (x : Z) : orZero x = x.
Proof. unfold orZero. destruct (Z.eqb_spec x 0) as [-> |]; reflexivity. Qed.

Lemma currentLoanOf_inv (st : State) (id : string) (l : Loan) :
  currentLoanOf st id = Some l ->
  exists ls, loans st = Some ls /\ findLoan ls id = Some l.
Proof.
  unfold currentLoanOf. destruct (loans st) as [ls|]; [|discriminate].
  intros H. exists ls. split; [reflexivity | exact H].
Qed.

Lemma storePayment_id (id : string) (b : PayBody) (l : Loan) :
  loanId (storePayment id b l) = loanId l.
Proof. unfold storePayment. now destruct (String.eqb (loanId l) id). Qed.

Lemma storePayment_hit (id : string) (b : PayBody) (l : Loan) :
  String.eqb (loanId l) id = true ->
  storePayment id b l =
  {| loanId := loanId l; principalAmount := principalAmount l;
     interestRate := interestRate l; tenure := tenure l;
     emiAmount := emiAmount l;
     remainingPrincipal := body_remainingPrincipal b;
     paidInstallments := body_paidInstallments b;
     nextDueDate := body_nextDueDate b;
     createdAt := createdAt l; status := body_status b |}.
Proof. intros H. unfold storePayment. now rewrite H. Qed.

Lemma findLoan_hit (ls : list Loan) (id : string) (l : Loan) :
  findLoan ls id = Some l -> String.eqb (loanId l) id = true.
Proof. intros H. apply find_some in H. tauto. Qed.

Lemma findLoan_store (id : string) (b : PayBody) (ls : list Loan) (l : Loan) :
  findLoan ls id = Some l ->
  findLoan (map (storePayment id b) ls) id = Some (storePayment id b l).
Proof.
  unfold findLoan. induction ls as [| a ls IH]; [discriminate|].
  cbn. rewrite storePayment_id.
  destruct (String.eqb (loanId a) id); [intros [= ->]; reflexivity | exact IH].
Qed.

(** After the synchronising effect the count recorded for [id] is the
    posted one, however many loans carry that id. *)
Lemma sync_fold_lookup (id : string) (c : Z) (ls : list Loan) :
  (forall l, In l ls -> loanId l = id -> orZero (paidInstallments l) = c) ->
  forall acc : gmap string Z,
    fold_left (fun acc loan => <[loanId loan := orZero (paidInstallments loan)]> acc)
              ls acc !! id
    = if existsb (fun l => String.eqb (loanId l) id) ls then Some c else acc !! id.
Proof.
  induction ls as [| a ls IH]; intros Hall acc; [reflexivity|].
  cbn [fold_left existsb]. rewrite IH by (intros l Hl; apply Hall; now right).
  destruct (existsb (fun l => String.eqb (loanId l) id) ls).
  - now rewrite orb_true_r.
  - rewrite orb_false_r. destruct (String.eqb_spec (loanId a) id) as [E | E].
    + rewrite E, lookup_insert_eq. f_equal.
      apply Hall; [now left | exact E].
    + now rewrite lookup_insert_ne.
Qed.

Lemma sync_after_store (id : string) (b : PayBody) (ls : list Loan) (l : Loan) :
  findLoan ls id = Some l ->
  syncInstallments (map (storePayment id b) ls) !! id
  = Some (orZero (body_paidInstallments b)).
Proof.
  intros Hf. unfold syncInstallments.
  rewrite (sync_fold_lookup id (orZero (body_paidInstallments b))).
  - assert (E : existsb (fun x => String.eqb (loanId x) id)
                        (map (storePayment id b) ls) = true).
    { apply existsb_exists. exists (storePayment id b l). split.
      - apply in_map. apply find_some in Hf. tauto.
      - rewrite storePayment_id. now apply (findLoan_hit ls). }
    now rewrite E.
  - intros x Hx Hid. apply in_map_iff in Hx. destruct Hx as (y & <- & _).
    rewrite storePayment_id in Hid.
    rewrite storePayment_hit by (now apply String.eqb_eq). reflexivity.
Qed.

Lemma payOnce_rejected (st : State) (id : string)
      (u : User) (ls : list Loan) (l : Loan) :
  user st = Some u -> loans st = Some ls -> findLoan ls id = Some l ->
  (tenure l <= alreadyPaidOf st id)%Z ->
  payOnce st id = setProcessing st None.
Proof.
  intros Hu Hl Hf Hc. unfold payOnce.
  now rewrite (handlePayment_rejected true st id u ls l Hu Hl Hf Hc).
Qed.

Lemma payOnce_processed (st : State) (id : string)
      (u : User) (ls : list Loan) (l : Loan) :
  user st = Some u -> loans st = Some ls -> findLoan ls id = Some l ->
  (alreadyPaidOf st id < tenure l)%Z ->
  let b := payBody u (alreadyPaidOf st id) l in
  payOnce st id =
  {| user := Some u;
     loans := Some (map (storePayment id b) ls);
     installmentsPaid := syncInstallments (map (storePayment id b) ls);
     isProcessingPayment := None |}.
Proof.
  intros Hu Hl Hf Hc b. unfold payOnce.
  rewrite (handlePayment_processed true st id u ls l Hu Hl Hf Hc).
  reflexivity.
Qed.

(** What one attempt does to the loan and to its recorded count. *)
Lemma payOnce_loan (st : State) (id : string) (u : User) (l : Loan) :
  user st = Some u -> currentLoanOf st id = Some l ->
  let c := alreadyPaidOf st id in
  user (payOnce st id) = Some u /\
  ((c < tenure l)%Z ->
   currentLoanOf (payOnce st id) id = Some (storePayment id (payBody u c l) l) /\
   alreadyPaidOf (payOnce st id) id = (c + 1)%Z) /\
  ((tenure l <= c)%Z ->
   currentLoanOf (payOnce st id) id = Some l /\
   alreadyPaidOf (payOnce st id) id = c).
Proof.
  intros Hu Hcur c. destruct (currentLoanOf_inv st id l Hcur) as (ls & Hl & Hf).
  destruct (Z_lt_le_dec c (tenure l)) as [Hc | Hc].
  - pose proof (payOnce_processed st id u ls l Hu Hl Hf Hc) as E.
    cbv zeta in E. fold c in E. rewrite E. split; [reflexivity|].
    split; [intros _ | intros C; subst c; lia].
    unfold currentLoanOf, alreadyPaidOf. cbn.
    rewrite (findLoan_store id _ ls l Hf), (sync_after_store id _ ls l Hf).
    split; [reflexivity|]. cbn. now rewrite !orZero_id.
  - rewrite (payOnce_rejected st id u ls l Hu Hl Hf Hc).
    split; [exact Hu|]. split; [intros C; subst c; lia | intros _].
    unfold currentLoanOf, alreadyPaidOf. cbn. rewrite Hl. split; [exact Hf | reflexivity].
Qed.

(** *** Sequences of payments on one loan *)

Section Sequence.
Variables (u : User) (id : string) (st0 : State) (l0 : Loan).
Hypothesis Huser : user st0 = Some u.
Hypothesis Hcur : currentLoanOf st0 id = Some l0.
Hypothesis Hzero : alreadyPaidOf st0 id = 0%Z.

Lemma loanAfter_terms (k : nat) :
  loanId (loanAfter u id l0 k) = loanId l0 /\
  tenure (loanAfter u id l0 k) = tenure l0 /\
  emiAmount (loanAfter u id l0 k) = emiAmount l0 /\
  interestRate (loanAfter u id l0 k) = interestRate l0.
Proof using Type.
  induction k as [| k IH]; [tauto|]. cbn [loanAfter].
  destruct (Z.of_nat k <? tenure l0)%Z; [|exact IH].
  unfold storePayment.
  destruct (String.eqb (loanId (loanAfter u id l0 k)) id); [cbn | ]; exact IH.
Qed.

(** The dashboard after [k] attempts holds [loanAfter k], with
    [min k tenure] installments recorded. *)
Lemma payTimes_loanAfter (k : nat) :
  user (payTimes k st0 id) = Some u /\
  currentLoanOf (payTimes k st0 id) id = Some (loanAfter u id l0 k) /\
  alreadyPaidOf (payTimes k st0 id) id
  = Z.max 0 (Z.min (Z.of_nat k) (tenure l0)).
Proof using Huser Hcur Hzero.
  induction k as [| k (IHu & IHl & IHc)].
  - cbn [payTimes loanAfter]. rewrite Hzero. repeat split; [assumption.. | lia].
  - cbn [payTimes loanAfter].
    destruct (payOnce_loan _ id u _ IHu IHl) as (Hu' & Hlt & Hge).
    destruct (loanAfter_terms k) as (_ & Ht & _).
    rewrite Ht, IHc in Hlt, Hge.
    split; [exact Hu'|].
    destruct (Z.ltb_spec (Z.of_nat k) (tenure l0)) as [C | C].
    + replace (Z.max 0 (Z.min (Z.of_nat k) (tenure l0))) with (Z.of_nat k)
        in Hlt by lia.
      destruct (Hlt C) as (H1 & H2). rewrite H1, H2.
      split; [reflexivity | lia].
    + destruct (Z_lt_le_dec (Z.max 0 (Z.min (Z.of_nat k) (tenure l0))) (tenure l0))
        as [D | D].
      * (* a tenure below one: the guard is never passed *) lia.
      * destruct (Hge D) as (H1 & H2). rewrite H1, H2. split; [reflexivity | lia].
Qed.

End Sequence.

Lemma loanAfter_status (u : User) (id : string) (l0 : Loan) (k : nat) :
  String.eqb (loanId l0) id = true ->
  (1 <= tenure l0)%Z -> status l0 = active ->
  (status (loanAfter u id l0 k) = completed <-> (tenure l0 <= Z.of_nat k)%Z).
Proof.
  intros Hid Hten Hact. induction k as [| k IH].
  - cbn [loanAfter]. rewrite Hact. split; [discriminate | cbn; lia].
  - cbn [loanAfter].
    destruct (Z.ltb_spec (Z.of_nat k) (tenure l0)) as [C | C].
    + rewrite storePayment_hit
        by (destruct (loanAfter_terms u id l0 k) as (-> & _); exact Hid).
      cbn [status payBody body_status].
      destruct (loanAfter_terms u id l0 k) as (_ & -> & _).
      destruct (Z.geb_spec (Z.of_nat k + 1) (tenure l0)) as [D | D];
        (split; [intros E; try discriminate E; lia | intros E; try reflexivity; lia]).
    + rewrite IH. lia.
Qed.

(** C3. A payment that is applied posts status completed exactly when the
    new paid-installment count reaches the tenure, whatever the remaining
    principal is; and on a loan of tenure [n >= 1] that starts active with
    no installment recorded, [k] accepted payments in sequence leave the
    loan completed exactly when [k >= n]: after the [n]-th payment and
    never before. *)
Theorem completion_at_tenure (u : User) (id : string) (st : State) (l : Loan) :
  user st = Some u -> currentLoanOf st id = Some l -> (1 <= tenure l)%Z ->
  ((alreadyPaidOf st id < tenure l)%Z ->
   exists body,
     snd (handlePayment true st id) = Paid body /\
     body_paidInstallments body = (alreadyPaidOf st id + 1)%Z /\
     (body_status body = completed <-> body_paidInstallments body = tenure l) /\
     (body_status body = active <-> (body_paidInstallments body < tenure l)%Z)) /\
  (alreadyPaidOf st id = 0%Z -> status l = active ->
   forall k : nat,
   exists lk,
     currentLoanOf (payTimes k st id) id = Some lk /\
     (status lk = completed <-> (tenure l <= Z.of_nat k)%Z) /\
     (status lk = active <-> (Z.of_nat k < tenure l)%Z)).
Proof.
  intros Hu Hcur Hten.
  destruct (currentLoanOf_inv st id l Hcur) as (ls & Hl & Hf).
  split.
  - intros Hc. exists (payBody u (alreadyPaidOf st id) l).
    rewrite (handlePayment_processed true st id u ls l Hu Hl Hf Hc).
    split; [reflexivity|]. split; [reflexivity|].
    cbn [payBody body_status body_paidInstallments].
    destruct (Z.geb_spec (alreadyPaidOf st id + 1) (tenure l)) as [D | D];
      (split; split; intros E; try discriminate E; try reflexivity; lia).
  - intros Hzero Hact k. exists (loanAfter u id l k).
    destruct (payTimes_loanAfter u id st l Hu Hcur Hzero k) as (_ & Hk & _).
    pose proof (loanAfter_status u id l k (findLoan_hit ls id l Hf) Hten Hact) as Hs.
    split; [exact Hk|]. split; [exact Hs|].
    destruct (status (loanAfter u id l k)).
    + split; [intros _ | reflexivity].
      destruct (Z_lt_le_dec (Z.of_nat k) (tenure l)) as [C | C]; [exact C|].
      apply Hs in C. discriminate C.
    + split; [discriminate|]. intros C.
      assert (E : (tenure l <= Z.of_nat k)%Z) by (now apply Hs). lia.
Qed.

Lemma completion_at_tenure_witness :
  exists l2 l3,
    currentLoanOf (payTimes 2 Samples.dashboard "L2") "L2" = Some l2 /\
    status l2 = active /\
    currentLoanOf (payTimes 3 Samples.dashboard "L2") "L2" = Some l3 /\
    status l3 = completed.
Proof.
  destruct (completion_at_tenure Samples.asha "L2" Samples.dashboard Samples.loanB)
    as (_ & Hseq); [reflexivity | reflexivity | vm_compute; discriminate |].
  destruct (Hseq eq_refl eq_refl 2%nat) as (l2 & H2 & _ & A2).
  destruct (Hseq eq_refl eq_refl 3%nat) as (l3 & H3 & C3 & _).
  exists l2, l3. split; [exact H2|]. split; [apply A2; reflexivity|].
  split; [exact H3|]. apply C3. vm_compute. discriminate.
Defined.

(** Completion does not wait for the balance: the sample loan with 11 of
    12 installments recorded and an installment of 10000 is completed by
    the next payment although 40000 remain. *)
Example completed_with_residual :
  let l := {| loanId := "L5"; principalAmount := 120000; interestRate := 0;
              tenure := 12; emiAmount := 10000; remainingPrincipal := 50000;
              paidInstallments := 11; nextDueDate := None;
              createdAt := dateOf 2023 0 1; status := active |} in
  let b := payBody Samples.asha 11 l in
  body_status b = completed /\ body_remainingPrincipal b == 40000.
Proof. split; reflexivity. Qed.

(** *** The remaining principal *)

(** The installment computed from the terms covers a month of interest on
    any balance between zero and the principal. *)
Lemma emi_covers_interest (P ra E p : Q) (n : Z) :
  0 < P -> 0 <= ra -> (1 <= n)%Z -> E == computeEmi P ra n ->
  0 <= p -> p <= P -> p * (ra / 1200) <= E.
Proof.
  intros HP Hra Hn HE Hp0 HpP.
  destruct (Qeq_dec (ra / (12 * 100)) 0) as [Hz | Hnz].
  - pose proof (EmiFacts.computeEmi_pos P ra n HP Hra Hn) as Hpos.
    rewrite <- EmiFacts.monthly_rate_1200, Hz, HE. lra.
  - rewrite HE, EmiFacts.computeEmi_annuity by assumption.
    rewrite <- EmiFacts.monthly_rate_1200.
    set (r := ra / (12 * 100)) in *.
    assert (Hr : 0 < r).
    { assert (0 <= r) by (apply Qle_shift_div_l; [reflexivity | lra]). lra. }
    pose proof (EmiFacts.growth_gt_1 r n Hr Hn) as Hg.
    set (g := (1 + r) ^ n) in *.
    apply Qle_shift_div_l; [lra|].
    assert (H1 : p * r <= P * r) by (apply Qmult_le_compat_r; lra).
    assert (H2 : 0 <= P * r) by (apply Qmult_le_0_compat; lra).
    assert (H3 : p * r * (g - 1) <= P * r * (g - 1))
      by (apply Qmult_le_compat_r; lra).
    assert (H4 : P * r * (g - 1) <= P * r * g).
    { assert (Heq : P * r * (g - 1) == P * r * g - P * r) by ring.
      rewrite Heq. lra. }
    lra.
Qed.

Lemma newPrincipal_bounds (l : Loan) :
  0 <= remainingPrincipal l -> interestPaid l <= emiAmount l ->
  0 <= newPrincipal l /\ newPrincipal l <= remainingPrincipal l.
Proof.
  intros Hp Hi. unfold newPrincipal, principalPaid. split.
  - apply Q.le_max_l.
  - apply Q.max_lub; [exact Hp | lra].
Qed.

Lemma loanAfter_principal (u : User) (id : string) (l0 : Loan) (k : nat) :
  String.eqb (loanId l0) id = true -> freshlyCreated l0 ->
  0 <= remainingPrincipal (loanAfter u id l0 k) /\
  remainingPrincipal (loanAfter u id l0 k) <= principalAmount l0 /\
  0 <= remainingPrincipal (loanAfter u id l0 (S k)) /\
  remainingPrincipal (loanAfter u id l0 (S k))
  <= remainingPrincipal (loanAfter u id l0 k).
Proof.
  intros Hid (HP & Hra & Hn & HE & Hrp & _ & _).
  assert (Hstep : forall j,
             0 <= remainingPrincipal (loanAfter u id l0 j) /\
             remainingPrincipal (loanAfter u id l0 j) <= principalAmount l0 ->
             0 <= remainingPrincipal (loanAfter u id l0 (S j)) /\
             remainingPrincipal (loanAfter u id l0 (S j))
             <= remainingPrincipal (loanAfter u id l0 j)).
  { intros j (H0 & H1). cbn [loanAfter].
    destruct (Z.of_nat j <? tenure l0)%Z; [| split; [exact H0 | apply Qle_refl]].
    rewrite storePayment_hit
      by (destruct (loanAfter_terms u id l0 j) as (-> & _); exact Hid).
    cbn [remainingPrincipal payBody body_remainingPrincipal].
    apply newPrincipal_bounds; [exact H0|].
    unfold interestPaid, monthlyRate.
    destruct (loanAfter_terms u id l0 j) as (_ & _ & -> & ->).
    now apply (emi_covers_interest (principalAmount l0) _ _ _ (tenure l0)). }
  assert (Hinv : 0 <= remainingPrincipal (loanAfter u id l0 k) /\
                 remainingPrincipal (loanAfter u id l0 k) <= principalAmount l0).
  { induction k as [| k IH].
    - cbn [loanAfter]. rewrite Hrp. split; lra.
    - destruct (Hstep k IH) as (A & B). split; [exact A | lra]. }
  destruct Hinv as (A & B). destruct (Hstep k (conj A B)) as (C & D).
  repeat split; assumption.
Qed.

(** C7. Along any sequence of accepted payments that starts from a freshly
    created loan, the remaining principal never increases from one state
    to the next and is never negative. *)
Theorem remaining_principal_monotone
        (u : User) (id : string) (st : State) (l : Loan) :
  user st = Some u -> currentLoanOf st id = Some l ->
  alreadyPaidOf st id = 0%Z -> freshlyCreated l ->
  forall k : nat,
  exists lk lk',
    currentLoanOf (payTimes k st id) id = Some lk /\
    currentLoanOf (payTimes (S k) st id) id = Some lk' /\
    0 <= remainingPrincipal lk /\
    0 <= remainingPrincipal lk' /\
    remainingPrincipal lk' <= remainingPrincipal lk.
Proof.
  intros Hu Hcur Hzero Hfresh k.
  destruct (currentLoanOf_inv st id l Hcur) as (ls & _ & Hf).
  exists (loanAfter u id l k), (loanAfter u id l (S k)).
  destruct (payTimes_loanAfter u id st l Hu Hcur Hzero k) as (_ & Hk & _).
  destruct (payTimes_loanAfter u id st l Hu Hcur Hzero (S k)) as (_ & HSk & _).
  destruct (loanAfter_principal u id l k (findLoan_hit ls id l Hf) Hfresh)
    as (A & _ & C & D).
  repeat split; assumption.
Qed.

Lemma loanA_fresh : freshlyCreated Samples.loanA.
Proof.
  unfold freshlyCreated. cbn.
  repeat split; try reflexivity; try discriminate.
Defined.

Lemma remaining_principal_monotone_witness :
  exists l1 l2,
    currentLoanOf (payTimes 1 Samples.dashboard "L1") "L1" = Some l1 /\
    currentLoanOf (payTimes 2 Samples.dashboard "L1") "L1" = Some l2 /\
    0 <= remainingPrincipal l1 /\
    0 <= remainingPrincipal l2 /\
    remainingPrincipal l2 <= remainingPrincipal l1.
Proof.
  apply (remaining_principal_monotone Samples.asha "L1" Samples.dashboard
           Samples.loanA);
    [reflexivity | reflexivity | reflexivity | exact loanA_fresh].
Defined.

(** *** The next due date *)

(** In a browser whose time zone is UTC, the next due date posted by a
    payment that is not the last one is one [setMonth] step from the
    previous due date (from [createdAt] when there is none).  The day of
    the month is kept when the next month has it; when the next month is
    shorter the date is not clamped to its last day but runs over into the
    month after it.  The last payment posts no due date.
    [ZonedFacts.next_due_date_posted_in] is the statement for every
    zone. *)
Theorem next_due_date_posted (st : State) (id : string)
        (u : User) (ls : list Loan) (l : Loan) :
  user st = Some u -> loans st = Some ls -> findLoan ls id = Some l ->
  (alreadyPaidOf st id < tenure l)%Z ->
  exists body,
    snd (handlePayment true st id) = Paid body /\
    ((tenure l <= alreadyPaidOf st id + 1)%Z -> body_nextDueDate body = None) /\
    ((alreadyPaidOf st id + 1 < tenure l)%Z ->
     let c := civilFromDays (Day (baseDate l)) in
     let y' := fst (nextMonth (cYear c) (cMonth c)) in
     let m' := snd (nextMonth (cYear c) (cMonth c)) in
     body_nextDueDate body = Some (nextDue l) /\
     TimeWithinDay (nextDue l) = TimeWithinDay (baseDate l) /\
     ((cDate c <= daysInMonth y' m')%Z ->
      civilFromDays (Day (nextDue l)) = mkCivil y' m' (cDate c)) /\
     ((daysInMonth y' m' < cDate c)%Z ->
      civilFromDays (Day (nextDue l))
      = mkCivil (fst (nextMonth y' m')) (snd (nextMonth y' m'))
                (cDate c - daysInMonth y' m')%Z)).
Proof.
  intros Hu Hl Hf Hc. exists (payBody u (alreadyPaidOf st id) l).
  rewrite (handlePayment_processed true st id u ls l Hu Hl Hf Hc).
  split; [reflexivity|]. cbn [payBody body_nextDueDate]. split.
  - intros H. destruct (Z.geb_spec (alreadyPaidOf st id + 1) (tenure l)); [reflexivity | lia].
  - intros H. cbv zeta.
    destruct (Z.geb_spec (alreadyPaidOf st id + 1) (tenure l)); [lia|].
    split; [reflexivity|]. exact (DateFacts.setMonth_next_month (baseDate l)).
Qed.

Lemma next_due_date_posted_witness :
  exists body,
    snd (handlePayment true Samples.dashboard "L2") = Paid body /\
    body_nextDueDate body = Some (dateOf 2024 5 15).
Proof.
  destruct (next_due_date_posted Samples.dashboard "L2" Samples.asha
              [Samples.loanA; Samples.loanB; Samples.loanC; Samples.loanD]
              Samples.loanB)
    as (body & Hb & _ & Hnext);
    [reflexivity | reflexivity | reflexivity | vm_compute; reflexivity |].
  exists body. split; [exact Hb|].
  destruct Hnext as (Hd & _); [vm_compute; reflexivity|].
  rewrite Hd. reflexivity.
Defined.

(** C4. A loan whose next due date is 2024-01-31 gets, after one payment,
    the next due date 2024-03-02 and not 2024-02-29: [setMonth] keeps the
    day of the month 31, which February does not have, and the date runs
    over into March. *)
Theorem next_due_jan31_overflows :
  nextDueDate Samples.loanA = Some (dateOf 2024 0 31) /\
  (exists body,
     snd (handlePayment true Samples.dashboard "L1") = Paid body /\
     body_status body = active /\
     body_nextDueDate body = Some (dateOf 2024 2 2)) /\
  civilFromDays (Day (nextDue Samples.loanA)) = mkCivil 2024 2 2 /\
  nextDue Samples.loanA <> dateOf 2024 1 29.
Proof.
  split; [reflexivity|]. split.
  - eexists. split; [vm_compute; reflexivity|]. split; reflexivity.
  - split; [reflexivity | vm_compute; discriminate].
Qed.

End PaymentFacts.

(** ** Theorems on the amortization schedule *)

Module AmortizationFacts.
Import JsNum LendingRecords Dashboard.

Lemma Qpower_succ (a : Q) (k : nat) :
  a ^ Z.of_nat (S k) == a ^ Z.of_nat k * a.
Proof.
  rewrite Nat2Z.inj_succ, <- Z.add_1_r.
  rewrite Qpower_plus' by lia. rewrite Qpower_1_r. reflexivity.
Qed.

(** Bernoulli-style bound: [(1+r)^m - 1 < m * r * (1+r)^m] for [m >= 1]. *)
Lemma growth_below_simple_interest (r : Q) (m : nat) :
  0 < r ->
  (1 + r) ^ Z.of_nat (S m) - 1
  < inject_Z (Z.of_nat (S m)) * r * (1 + r) ^ Z.of_nat (S m).
Proof.
  intros Hr. induction m as [| m IH].
  - change (Z.of_nat 1) with 1%Z. rewrite Qpower_1_r. change (inject_Z 1) with 1.
    assert (0 < r * r) by (apply Qmult_lt_0_compat; exact Hr). lra.
  - rewrite (Qpower_succ (1 + r) (S m)).
    rewrite (Nat2Z.inj_succ (S m)), <- Z.add_1_r, inject_Z_plus.
    set (g := (1 + r) ^ Z.of_nat (S m)) in *.
    set (c := inject_Z (Z.of_nat (S m))) in *.
    assert (Hg : 1 <= g) by (apply Qpower_1_le; [lra | lia]).
    assert (Hc : 0 <= c) by (unfold c; change 0 with (inject_Z 0); rewrite <- Zle_Qle; lia).
    change (inject_Z 1) with 1.
    nra.
Qed.

(** X1. The installments add up to the principal when the rate is zero,
    and to more than the principal when the rate is positive. *)
Theorem total_repayment (P ra : Q) (n : Z) :
  0 < P -> 0 <= ra -> (1 <= n)%Z ->
  (ra == 0 -> inject_Z n * computeEmi P ra n == P) /\
  (0 < ra -> P < inject_Z n * computeEmi P ra n).
Proof.
  intros HP Hra Hn. split; intros H.
  - rewrite EmiFacts.computeEmi_zero_rate; [| exact Hn | rewrite H; reflexivity].
    pose proof (EmiFacts.inject_Z_pos n Hn). field. lra.
  - assert (Hr : 0 < ra / (12 * 100)) by (apply Qlt_shift_div_l; [reflexivity | lra]).
    rewrite EmiFacts.computeEmi_annuity; [| exact Hn | lra].
    set (r := ra / (12 * 100)) in *.
    pose proof (EmiFacts.annuity_divisor_pos r n Hr Hn) as Hd.
    assert (Hb : (1 + r) ^ n - 1 < inject_Z n * r * (1 + r) ^ n).
    { destruct (Z.to_nat n) as [| m] eqn:E; [lia|].
      replace n with (Z.of_nat (S m)) by lia.
      now apply growth_below_simple_interest. }
    set (g := (1 + r) ^ n) in *.
    assert (E : inject_Z n * (P * r * g / (g - 1)) == (inject_Z n * r * g * P) / (g - 1))
      by (field; lra).
    rewrite E. apply Qlt_shift_div_l; [exact Hd|].
    nra.
Qed.

Lemma total_repayment_witness :
  inject_Z 3 * computeEmi 3000 0 3 == 3000 /\
  120000 < inject_Z 12 * computeEmi 120000 12 12.
Proof.
  split.
  - apply (total_repayment 3000 0 3); [reflexivity | discriminate | lia | reflexivity].
  - apply (total_repayment 120000 12 12); [reflexivity | discriminate | lia | reflexivity].
Defined.

(** *** Full amortization *)

Lemma loanAfter_next_principal (u : User) (id : string) (l0 : Loan) (k : nat) :
  String.eqb (loanId l0) id = true -> (Z.of_nat k < tenure l0)%Z ->
  remainingPrincipal (loanAfter u id l0 (S k))
  = Qmax 0 (remainingPrincipal (loanAfter u id l0 k)
            - (emiAmount l0
               - remainingPrincipal (loanAfter u id l0 k) * (interestRate l0 / 1200))).
Proof.
  intros Hid Hk. cbn [loanAfter].
  destruct (Z.ltb_spec (Z.of_nat k) (tenure l0)) as [_ | C]; [|lia].
  rewrite PaymentFacts.storePayment_hit
    by (destruct (PaymentFacts.loanAfter_terms u id l0 k) as (-> & _); exact Hid).
  cbn [remainingPrincipal payBody body_remainingPrincipal].
  unfold newPrincipal, principalPaid, interestPaid, monthlyRate.
  destruct (PaymentFacts.loanAfter_terms u id l0 k) as (_ & _ & -> & ->).
  reflexivity.
Qed.

(** With interest: the balance after [k <= n] payments, in closed form. *)
Lemma balance_closed_form (u : User) (id : string) (l0 : Loan) (k : nat) :
  String.eqb (loanId l0) id = true -> freshlyCreated l0 ->
  0 < interestRate l0 -> (Z.of_nat k <= tenure l0)%Z ->
  let r := interestRate l0 / 1200 in
  let G := (1 + r) ^ tenure l0 in
  remainingPrincipal (loanAfter u id l0 k) * (G - 1)
  == principalAmount l0 * (G - (1 + r) ^ Z.of_nat k).
Proof.
  intros Hid (HP & Hra & Hn & HE & Hrp & _ & _) Hpos Hk r G.
  assert (Hr : 0 < r) by (apply Qlt_shift_div_l; [reflexivity | lra]).
  assert (HG : 0 < G - 1) by (apply EmiFacts.annuity_divisor_pos; assumption).
  assert (HEG : emiAmount l0 * (G - 1) == principalAmount l0 * r * G).
  { rewrite HE, EmiFacts.computeEmi_annuity;
      [| exact Hn | rewrite EmiFacts.monthly_rate_1200; fold r; lra].
    rewrite EmiFacts.monthly_rate_1200. fold r. fold G. field. lra. }
  induction k as [| k IH].
  - cbn [loanAfter]. rewrite Hrp. change (Z.of_nat 0) with 0%Z.
    change ((1 + r) ^ 0) with 1. ring.
  - rewrite loanAfter_next_principal by (assumption || lia).
    fold r. specialize (IH ltac:(lia)).
    set (B := remainingPrincipal (loanAfter u id l0 k)) in *.
    assert (Hnext : (B - (emiAmount l0 - B * r)) * (G - 1)
                    == principalAmount l0 * (G - (1 + r) ^ Z.of_nat (S k))).
    { rewrite Qpower_succ.
      assert (E1 : (B - (emiAmount l0 - B * r)) * (G - 1)
                   == B * (G - 1) * (1 + r) - emiAmount l0 * (G - 1)) by ring.
      rewrite E1, IH, HEG. ring. }
    assert (Hmono : (1 + r) ^ Z.of_nat (S k) <= G)
      by (apply Qpower_le_compat_l; [lia | lra]).
    assert (Hge : 0 <= B - (emiAmount l0 - B * r)).
    { assert (0 <= (B - (emiAmount l0 - B * r)) * (G - 1)).
      { rewrite Hnext. apply Qmult_le_0_compat; lra. }
      nra. }
    rewrite (Q.max_r _ _ Hge). exact Hnext.
Qed.

(** Without interest: the balance falls by [P / n] per payment. *)
Lemma balance_linear (u : User) (id : string) (l0 : Loan) (k : nat) :
  String.eqb (loanId l0) id = true -> freshlyCreated l0 ->
  interestRate l0 == 0 -> (Z.of_nat k <= tenure l0)%Z ->
  remainingPrincipal (loanAfter u id l0 k) * inject_Z (tenure l0)
  == principalAmount l0 * (inject_Z (tenure l0) - inject_Z (Z.of_nat k)).
Proof.
  intros Hid (HP & Hra & Hn & HE & Hrp & _ & _) Hz Hk.
  pose proof (EmiFacts.inject_Z_pos _ Hn) as Hnpos.
  assert (HEn : emiAmount l0 * inject_Z (tenure l0) == principalAmount l0).
  { rewrite HE, EmiFacts.computeEmi_zero_rate; [| exact Hn | rewrite Hz; reflexivity].
    field. lra. }
  induction k as [| k IH].
  - cbn [loanAfter]. rewrite Hrp. change (inject_Z (Z.of_nat 0)) with 0. ring.
  - rewrite loanAfter_next_principal by (assumption || lia).
    specialize (IH ltac:(lia)).
    set (B := remainingPrincipal (loanAfter u id l0 k)) in *.
    rewrite Nat2Z.inj_succ, <- Z.add_1_r, inject_Z_plus. change (inject_Z 1) with 1.
    assert (Hnext : (B - (emiAmount l0 - B * (interestRate l0 / 1200))) * inject_Z (tenure l0)
                    == principalAmount l0
                       * (inject_Z (tenure l0) - (inject_Z (Z.of_nat k) + 1))).
    { rewrite Hz.
      assert (E1 : (B - (emiAmount l0 - B * (0 / 1200))) * inject_Z (tenure l0)
                   == B * inject_Z (tenure l0) - emiAmount l0 * inject_Z (tenure l0))
        by (field).
      rewrite E1, IH, HEn. ring. }
    assert (Hkn : inject_Z (Z.of_nat k) + 1 <= inject_Z (tenure l0)).
    { change 1 with (inject_Z 1). rewrite <- inject_Z_plus, <- Zle_Qle. lia. }
    assert (Hge : 0 <= B - (emiAmount l0 - B * (interestRate l0 / 1200))).
    { assert (0 <= (B - (emiAmount l0 - B * (interestRate l0 / 1200)))
                   * inject_Z (tenure l0)).
      { rewrite Hnext. apply Qmult_le_0_compat; lra. }
      nra. }
    rewrite (Q.max_r _ _ Hge). exact Hnext.
Qed.

Lemma loanAfter_stable (u : User) (id : string) (l0 : Loan) (k : nat) :
  (tenure l0 <= Z.of_nat k)%Z ->
  loanAfter u id l0 k = loanAfter u id l0 (Z.to_nat (tenure l0)).
Proof.
  intros Hk. induction k as [| k IH].
  - replace (Z.to_nat (tenure l0)) with 0%nat by lia. reflexivity.
  - destruct (Z.eq_dec (tenure l0) (Z.of_nat (S k))) as [E | E].
    + rewrite E, Nat2Z.id. reflexivity.
    + cbn [loanAfter].
      destruct (Z.ltb_spec (Z.of_nat k) (tenure l0)) as [C | C]; [lia|].
      apply IH. lia.
Qed.

(** X2. The installment computed from the terms pays the loan off exactly:
    along accepted payments that start from a freshly created loan the
    remaining principal is positive while fewer than [tenure] installments
    are paid, and it is zero from the [tenure]-th payment on. *)
Theorem fully_amortized (u : User) (id : string) (st : State) (l : Loan) :
  user st = Some u -> currentLoanOf st id = Some l ->
  alreadyPaidOf st id = 0%Z -> freshlyCreated l ->
  forall k : nat,
  exists lk,
    currentLoanOf (payTimes k st id) id = Some lk /\
    ((Z.of_nat k < tenure l)%Z -> 0 < remainingPrincipal lk) /\
    ((tenure l <= Z.of_nat k)%Z -> remainingPrincipal lk == 0).
Proof.
  intros Hu Hcur Hzero Hfresh k.
  destruct (PaymentFacts.currentLoanOf_inv st id l Hcur) as (ls & _ & Hf).
  pose proof (PaymentFacts.findLoan_hit ls id l Hf) as Hid.
  exists (loanAfter u id l k).
  destruct (PaymentFacts.payTimes_loanAfter u id st l Hu Hcur Hzero k) as (_ & Hk & _).
  split; [exact Hk|].
  pose proof Hfresh as (HP & Hra & Hn & _).
  assert (Hcases : 0 < interestRate l \/ interestRate l == 0) by lra.
  assert (Hbal : forall j : nat, (Z.of_nat j <= tenure l)%Z ->
            ((Z.of_nat j < tenure l)%Z -> 0 < remainingPrincipal (loanAfter u id l j)) /\
            (Z.of_nat j = tenure l -> remainingPrincipal (loanAfter u id l j) == 0)).
  { intros j Hj. destruct Hcases as [Hpos | Hz].
    - pose proof (balance_closed_form u id l j Hid Hfresh Hpos Hj) as Hc.
      cbv zeta in Hc.
      assert (Hr : 0 < interestRate l / 1200)
        by (apply Qlt_shift_div_l; [reflexivity | lra]).
      pose proof (EmiFacts.annuity_divisor_pos _ (tenure l) Hr Hn) as HG.
      set (G := (1 + interestRate l / 1200) ^ tenure l) in *.
      set (B := remainingPrincipal (loanAfter u id l j)) in *.
      split.
      + intros Hlt.
        assert (Hg : (1 + interestRate l / 1200) ^ Z.of_nat j < G)
          by (apply Qpower_lt_compat_l; [lia | lra]).
        assert (0 < B * (G - 1)).
        { rewrite Hc. apply Qmult_lt_0_compat; lra. }
        nra.
      + intros Heq. rewrite Heq in Hc. fold G in Hc.
        assert (B * (G - 1) == 0) by (rewrite Hc; ring).
        nra.
    - pose proof (balance_linear u id l j Hid Hfresh Hz Hj) as Hc.
      pose proof (EmiFacts.inject_Z_pos _ Hn) as Hnpos.
      set (B := remainingPrincipal (loanAfter u id l j)) in *.
      split.
      + intros Hlt.
        assert (inject_Z (Z.of_nat j) < inject_Z (tenure l)) by (rewrite <- Zlt_Qlt; lia).
        assert (0 < B * inject_Z (tenure l)).
        { rewrite Hc. apply Qmult_lt_0_compat; lra. }
        nra.
      + intros Heq. rewrite Heq in Hc.
        assert (B * inject_Z (tenure l) == 0) by (rewrite Hc; ring).
        nra. }
  split.
  - intros Hlt. apply (Hbal k); lia.
  - intros Hge. rewrite (loanAfter_stable u id l k Hge).
    apply (Hbal (Z.to_nat (tenure l))); lia.
Qed.

Lemma fully_amortized_witness :
  exists l2 l3,
    currentLoanOf (payTimes 2 Samples.dashboard "L2") "L2" = Some l2 /\
    0 < remainingPrincipal l2 /\
    currentLoanOf (payTimes 3 Samples.dashboard "L2") "L2" = Some l3 /\
    remainingPrincipal l3 == 0.
Proof.
  assert (Hfresh : freshlyCreated Samples.loanB).
  { unfold freshlyCreated. cbn. repeat split; try reflexivity; discriminate. }
  pose proof (fully_amortized Samples.asha "L2" Samples.dashboard Samples.loanB
                eq_refl eq_refl eq_refl Hfresh) as H.
  destruct (H 2%nat) as (l2 & H2 & P2 & _).
  destruct (H 3%nat) as (l3 & H3 & _ & Z3).
  exists l2, l3. split; [exact H2|]. split; [apply P2; reflexivity|].
  split; [exact H3|]. apply Z3. vm_compute. discriminate.
Defined.

(** X3. With a positive rate, the balance after [k <= tenure] accepted
    payments is [P * ((1+r)^n - (1+r)^k) / ((1+r)^n - 1)]. *)
Theorem balance_after_payments (u : User) (id : string) (st : State) (l : Loan)
        (k : nat) :
  user st = Some u -> currentLoanOf st id = Some l ->
  alreadyPaidOf st id = 0%Z -> freshlyCreated l ->
  0 < interestRate l -> (Z.of_nat k <= tenure l)%Z ->
  let r := interestRate l / 1200 in
  let G := (1 + r) ^ tenure l in
  exists lk,
    currentLoanOf (payTimes k st id) id = Some lk /\
    ~ G - 1 == 0 /\
    remainingPrincipal lk
    == principalAmount l * (G - (1 + r) ^ Z.of_nat k) / (G - 1).
Proof.
  intros Hu Hcur Hzero Hfresh Hpos Hk r G.
  destruct (PaymentFacts.currentLoanOf_inv st id l Hcur) as (ls & _ & Hf).
  pose proof (PaymentFacts.findLoan_hit ls id l Hf) as Hid.
  exists (loanAfter u id l k).
  destruct (PaymentFacts.payTimes_loanAfter u id st l Hu Hcur Hzero k) as (_ & Hlk & _).
  split; [exact Hlk|].
  pose proof Hfresh as (_ & _ & Hn & _).
  assert (Hr : 0 < r) by (apply Qlt_shift_div_l; [reflexivity | lra]).
  pose proof (EmiFacts.annuity_divisor_pos r (tenure l) Hr Hn) as HG. fold G in HG.
  split; [lra|].
  pose proof (balance_closed_form u id l k Hid Hfresh Hpos Hk) as Hc.
  cbv zeta in Hc. fold r in Hc. fold G in Hc.
  rewrite <- Hc. field. lra.
Qed.

Lemma balance_after_payments_witness :
  exists l1,
    currentLoanOf (payTimes 1 Samples.dashboard "L1") "L1" = Some l1 /\
    remainingPrincipal l1
    == 120000 * ((1 + 12 / 1200) ^ 12 - (1 + 12 / 1200) ^ 1)
       / ((1 + 12 / 1200) ^ 12 - 1).
Proof.
  destruct (balance_after_payments Samples.asha "L1" Samples.dashboard Samples.loanA
              1%nat eq_refl eq_refl eq_refl PaymentFacts.loanA_fresh)
    as (l1 & H1 & _ & Hb); [reflexivity | vm_compute; discriminate |].
  exists l1. split; [exact H1 | exact Hb].
Defined.

End AmortizationFacts.

(** ** Theorems on the stored borrowers and the EMI preview *)

Module BorrowerFacts.
Import JsNum LendingRecords BorrowerList.

Lemma normalizeBorrower_idem (b : Borrower) :
  normalizeBorrower (normalizeBorrower b) = normalizeBorrower b.
Proof. reflexivity. Qed.

(** X17. Loading the stored borrowers keeps their number and order, gives
    every record an EMI, never replaces an EMI that was stored (even one
    that disagrees with the terms of the record), and loading the loaded
    list again changes nothing. *)
Theorem loadBorrowers_normalizes (saved : list Borrower) :
  loadBorrowers (loadBorrowers saved) = loadBorrowers saved /\
  length (loadBorrowers saved) = length saved /\
  (forall (i : nat) (b : Borrower),
     saved !! i = Some b ->
     exists b',
       loadBorrowers saved !! i = Some b' /\
       b_id b' = b_id b /\
       b_principalAmount b' = b_principalAmount b /\
       b_interestRate b' = b_interestRate b /\
       b_tenure b' = b_tenure b /\
       (forall e, b_emi b = Some e -> b_emi b' = Some e) /\
       (b_emi b = None ->
        b_emi b' = Some (computeEmi (b_principalAmount b) (b_interestRate b)
                                    (b_tenure b)))).
Proof.
  unfold loadBorrowers. split; [| split].
  - rewrite map_map. apply map_ext. intros b. apply normalizeBorrower_idem.
  - apply length_map.
  - intros i b Hi. exists (normalizeBorrower b). split.
    + rewrite list_lookup_fmap. now rewrite Hi.
    + repeat split; try reflexivity.
      * intros e He. cbn. now rewrite He.
      * intros He. cbn. now rewrite He.
Qed.

Lemma orZeroQ_eq (x : Q) : orZeroQ x == x.
Proof.
  unfold orZeroQ. destruct (Qeq_bool x 0) eqn:E; [|reflexivity].
  apply Qeq_bool_iff in E. now rewrite E.
Qed.

Lemma computeEmi_rate_compat (p ra ra' : Q) (n : Z) :
  ra == ra' -> computeEmi p ra n == computeEmi p ra' n.
Proof.
  intros H. unfold computeEmi.
  destruct ((n =? 0)%Z || (n <=? 0)%Z); [reflexivity|]. cbv zeta.
  assert (Hb : Qeq_bool (ra / (12 * 100)) 0 = Qeq_bool (ra' / (12 * 100)) 0).
  { destruct (Qeq_bool (ra' / (12 * 100)) 0) eqn:E.
    - apply Qeq_bool_iff. apply Qeq_bool_iff in E. now rewrite H.
    - apply not_true_is_false. intros C. apply Qeq_bool_iff in C.
      rewrite H in C. apply Qeq_bool_iff in C. congruence. }
  rewrite Hb. destruct (Qeq_bool (ra' / (12 * 100)) 0); [reflexivity|].
  now rewrite H.
Qed.

Lemma computeEmi_principal_compat (p p' ra : Q) (n : Z) :
  p == p' -> computeEmi p ra n == computeEmi p' ra n.
Proof.
  intros H. unfold computeEmi.
  destruct ((n =? 0)%Z || (n <=? 0)%Z); [reflexivity|]. cbv zeta.
  destruct (Qeq_bool (ra / (12 * 100)) 0); now rewrite H.
Qed.

(** X18. Whenever [addBorrower] accepts the form, the preview shown under
    the form was the EMI that is saved with the borrower. *)
Theorem preview_matches_saved_emi (name email : string)
        (pA iR : option Q) (ten : option Z) (emi : Q) :
  addBorrower name email pA iR ten = BorrowerAdded emi ->
  exists e,
    computedEmiPreview name email pA iR ten = Some e /\
    e == emi /\
    previewShown (Some e) = true.
Proof.
  unfold addBorrower, computedEmiPreview.
  destruct (blank name || blank email || emptyText pA || emptyText iR || emptyText ten)
    eqn:Hmiss; [discriminate|].
  apply orb_false_iff in Hmiss. destruct Hmiss as (Hmiss & Hten).
  cbv zeta.
  destruct (Qle_bool (NumberQ pA) 0 || (NumberZ ten <=? 0)%Z || Qlt_bool (NumberQ iR) 0)
    eqn:Hinv; [discriminate|].
  intros [= <-].
  rewrite Hten, orb_true_r.
  eexists. split; [reflexivity|].
  assert (Heq : computeEmi (orZeroQ (NumberQ pA)) (orZeroQ (NumberQ iR))
                           (orZero (NumberZ ten))
                == computeEmi (NumberQ pA) (NumberQ iR) (NumberZ ten)).
  { rewrite PaymentFacts.orZero_id.
    rewrite (computeEmi_principal_compat _ _ _ _ (orZeroQ_eq (NumberQ pA))).
    apply computeEmi_rate_compat, orZeroQ_eq. }
  split; [exact Heq|].
  assert (Hpos : 0 < computeEmi (NumberQ pA) (NumberQ iR) (NumberZ ten)).
  { apply orb_false_iff in Hinv. destruct Hinv as (Hinv & Hrate).
    apply orb_false_iff in Hinv. destruct Hinv as (Hp & Hn).
    apply EmiFacts.computeEmi_pos.
    - apply Qnot_le_lt. intros C. apply Qle_bool_iff in C. congruence.
    - apply Qnot_lt_le. intros C. apply EmiFacts.Qlt_bool_iff in C. congruence.
    - apply Z.leb_gt in Hn. lia. }
  rewrite <- Heq in Hpos. unfold previewShown, previewRendered.
  match goal with
  | |- context [Qeq_bool ?e 0] =>
    assert (Hne : Qeq_bool e 0 = false)
      by (apply not_true_is_false; intros C; apply Qeq_bool_iff in C; lra);
    assert (Hlt : Qlt_bool 0 e = true) by (now apply EmiFacts.Qlt_bool_iff)
  end.
  now rewrite Hne, Hlt.
Qed.

Lemma preview_matches_saved_emi_witness :
  exists e,
    computedEmiPreview "Ravi" "ravi@example.org" (Some 120000) (Some 12) (Some 12%Z)
    = Some e /\
    e == computeEmi 120000 12 12 /\
    previewShown (Some e) = true.
Proof.
  apply (preview_matches_saved_emi "Ravi" "ravi@example.org"
           (Some 120000) (Some 12) (Some 12%Z)).
  reflexivity.
Defined.

(** X19. While the tenure field is empty, zero or negative the
    'Calculated EMI' block is never on the page: nothing is rendered when
    all five fields are empty, and as soon as one field holds something
    the page shows the text "0" in its place. *)
Theorem preview_without_tenure (name email : string)
        (pA iR : option Q) (ten : option Z) :
  (NumberZ ten <= 0)%Z ->
  previewShown (computedEmiPreview name email pA iR ten) = false /\
  previewRendered (computedEmiPreview name email pA iR ten)
  = (if nonEmpty name || nonEmpty email || negb (emptyText pA)
        || negb (emptyText iR) || negb (emptyText ten)
     then RendersZeroText else RendersNothing).
Proof.
  intros H. unfold previewShown, computedEmiPreview.
  destruct (nonEmpty name || nonEmpty email || negb (emptyText pA)
            || negb (emptyText iR) || negb (emptyText ten)); [|split; reflexivity].
  rewrite PaymentFacts.orZero_id, EmiFacts.computeEmi_guard by exact H.
  split; reflexivity.
Qed.

Lemma preview_without_tenure_witness :
  previewRendered (computedEmiPreview "Ravi" "" (Some 120000) (Some 12) None)
  = RendersZeroText /\
  previewRendered (computedEmiPreview "" "" None None None) = RendersNothing.
Proof.
  split.
  - apply (preview_without_tenure "Ravi" "" (Some 120000) (Some 12) None). cbn. lia.
  - apply (preview_without_tenure "" "" None None None). cbn. lia.
Defined.

End BorrowerFacts.

(** ** Theorems on the other paths of the dashboard *)

Module EffectFacts.
Import JsNum JsDate LendingRecords Dashboard DashboardEffects.

(** X8. The body of every request is well formed: the posted count is the
    recorded count plus one and does not exceed the tenure, the posted
    balance is not negative (for any loan, whatever its installment), and
    the status is completed exactly when no next due date is posted. *)
Theorem posted_body_well_formed (ok : bool) (st : State) (id : string)
        (ls : list Loan) (l : Loan) (body : PayBody) :
  loans st = Some ls -> findLoan ls id = Some l ->
  (snd (handlePayment ok st id) = Paid body \/
   snd (handlePayment ok st id) = PaymentFailed body) ->
  body_paidInstallments body = (alreadyPaidOf st id + 1)%Z /\
  (body_paidInstallments body <= tenure l)%Z /\
  0 <= body_remainingPrincipal body /\
  (body_status body = completed <-> body_nextDueDate body = None) /\
  (exists u, user st = Some u /\ body_userId body = user_id u).
Proof.
  intros Hl Hf Hpost.
  destruct (user st) as [u|] eqn:Hu;
    [| unfold handlePayment in Hpost; rewrite Hu in Hpost;
       destruct Hpost as [C | C]; discriminate C].
  destruct (Z_lt_le_dec (alreadyPaidOf st id) (tenure l)) as [Hc | Hc].
  - rewrite (PaymentFacts.handlePayment_processed ok st id u ls l Hu Hl Hf Hc) in Hpost.
    cbn [snd] in Hpost.
    assert (Hb : body = payBody u (alreadyPaidOf st id) l).
    { destruct ok; destruct Hpost as [C | C]; congruence. }
    subst body. cbn [payBody body_paidInstallments body_remainingPrincipal
                     body_status body_nextDueDate body_userId].
    split; [reflexivity|]. split; [lia|]. split; [apply Q.le_max_l|]. split.
    + destruct (alreadyPaidOf st id + 1 >=? tenure l)%Z;
        split; intros C; (reflexivity || discriminate C).
    + exists u. auto.
  - rewrite (PaymentFacts.handlePayment_rejected ok st id u ls l Hu Hl Hf Hc) in Hpost.
    destruct Hpost as [C | C]; discriminate C.
Qed.

Lemma posted_body_well_formed_witness :
  exists body,
    snd (handlePayment true Samples.dashboard "L3") = Paid body /\
    body_paidInstallments body = 4%Z /\
    0 <= body_remainingPrincipal body.
Proof.
  exists (payBody Samples.asha 3 Samples.loanC).
  assert (H : snd (handlePayment true Samples.dashboard "L3")
              = Paid (payBody Samples.asha 3 Samples.loanC))
    by (vm_compute; reflexivity).
  destruct (posted_body_well_formed true Samples.dashboard "L3"
              [Samples.loanA; Samples.loanB; Samples.loanC; Samples.loanD]
              Samples.loanC (payBody Samples.asha 3 Samples.loanC)
              eq_refl eq_refl (or_introl H))
    as (H1 & _ & H3 & _).
  split; [exact H|]. split; [exact H1 | exact H3].
Defined.

(** *** Failed requests *)

Lemma failOnce_processed (st : State) (id : string)
      (u : User) (ls : list Loan) (l : Loan) :
  user st = Some u -> loans st = Some ls -> findLoan ls id = Some l ->
  (alreadyPaidOf st id < tenure l)%Z ->
  loans (failOnce st id) = loans st /\
  alreadyPaidOf (failOnce st id) id = (alreadyPaidOf st id + 1)%Z.
Proof.
  intros Hu Hl Hf Hc. unfold failOnce.
  rewrite (PaymentFacts.handlePayment_processed false st id u ls l Hu Hl Hf Hc).
  cbn [fst]. unfold alreadyPaidOf.
  cbn [loans installmentsPaid]. rewrite lookup_insert_eq. cbn [undefOrZero].
  rewrite PaymentFacts.orZero_id. rewrite Hl. auto.
Qed.

(** X9. When the request fails, the loans stay as they are but the count
    recorded for the loan has already been raised by one and is not taken
    back. *)
Theorem failed_payment_keeps_count (st : State) (id : string)
        (u : User) (ls : list Loan) (l : Loan) :
  user st = Some u -> loans st = Some ls -> findLoan ls id = Some l ->
  (alreadyPaidOf st id < tenure l)%Z ->
  snd (handlePayment false st id) = PaymentFailed (payBody u (alreadyPaidOf st id) l) /\
  loans (failOnce st id) = loans st /\
  currentLoanOf (failOnce st id) id = Some l /\
  alreadyPaidOf (failOnce st id) id = (alreadyPaidOf st id + 1)%Z.
Proof.
  intros Hu Hl Hf Hc.
  destruct (failOnce_processed st id u ls l Hu Hl Hf Hc) as (H1 & H2).
  split.
  - now rewrite (PaymentFacts.handlePayment_processed false st id u ls l Hu Hl Hf Hc).
  - split; [exact H1|]. split; [|exact H2].
    unfold currentLoanOf. now rewrite H1, Hl.
Qed.

Lemma failed_payment_keeps_count_witness :
  currentLoanOf (failOnce Samples.dashboard "L1") "L1" = Some Samples.loanA /\
  alreadyPaidOf (failOnce Samples.dashboard "L1") "L1" = 1%Z.
Proof.
  destruct (failed_payment_keeps_count Samples.dashboard "L1" Samples.asha
              [Samples.loanA; Samples.loanB; Samples.loanC; Samples.loanD]
              Samples.loanA)
    as (_ & _ & H1 & H2);
    [reflexivity | reflexivity | reflexivity | vm_compute; reflexivity |].
  split; [exact H1 | exact H2].
Defined.

Lemma failTimes_state (u : User) (id : string) (st : State) (l : Loan) (k : nat) :
  user st = Some u -> currentLoanOf st id = Some l -> alreadyPaidOf st id = 0%Z ->
  user (failTimes k st id) = Some u /\
  loans (failTimes k st id) = loans st /\
  alreadyPaidOf (failTimes k st id) id = Z.max 0 (Z.min (Z.of_nat k) (tenure l)).
Proof.
  intros Hu Hcur Hzero.
  destruct (PaymentFacts.currentLoanOf_inv st id l Hcur) as (ls & Hl & Hf).
  induction k as [| k (IHu & IHl & IHc)].
  - cbn [failTimes]. rewrite Hzero. repeat split; [assumption | lia].
  - cbn [failTimes]. rewrite Hl in IHl.
    destruct (Z_lt_le_dec (alreadyPaidOf (failTimes k st id) id) (tenure l)) as [Hc | Hc].
    + destruct (failOnce_processed _ id u ls l IHu IHl Hf Hc) as (H1 & H2).
      unfold failOnce at 1.
      rewrite (PaymentFacts.handlePayment_processed false _ id u ls l IHu IHl Hf Hc).
      cbn [fst user]. split; [reflexivity|].
      rewrite H1, H2, IHl, Hl. split; [reflexivity | lia].
    + unfold failOnce.
      rewrite (PaymentFacts.handlePayment_rejected false _ id u ls l IHu IHl Hf Hc).
      cbn [fst setProcessing user loans]. split; [exact IHu|].
      rewrite IHl, Hl. split; [reflexivity|].
      change (alreadyPaidOf (setProcessing (failTimes k st id) None) id)
        with (alreadyPaidOf (failTimes k st id) id).
      lia.
Qed.

(** X10. Failed requests use the loan up: after [tenure] failed attempts on
    a loan with no installment recorded the loans are unchanged (nothing
    was paid), yet every further attempt is rejected as already completed
    until the loans are fetched again. *)
Theorem failed_payments_lock_out (u : User) (id : string) (st : State) (l : Loan)
        (k : nat) (ok : bool) :
  user st = Some u -> currentLoanOf st id = Some l -> alreadyPaidOf st id = 0%Z ->
  (1 <= tenure l)%Z -> (tenure l <= Z.of_nat k)%Z ->
  currentLoanOf (failTimes k st id) id = Some l /\
  snd (handlePayment ok (failTimes k st id) id) = AlreadyCompleted.
Proof.
  intros Hu Hcur Hzero Hn Hk.
  destruct (PaymentFacts.currentLoanOf_inv st id l Hcur) as (ls & Hl & Hf).
  destruct (failTimes_state u id st l k Hu Hcur Hzero) as (Hu' & Hl' & Hc').
  split.
  - unfold currentLoanOf. rewrite Hl', Hl. exact Hf.
  - rewrite Hl in Hl'.
    apply (PaymentFacts.guard_outcome ok _ id u ls l Hu' Hl' Hf). lia.
Qed.

Lemma failed_payments_lock_out_witness :
  currentLoanOf (failTimes 3 Samples.dashboard "L2") "L2" = Some Samples.loanB /\
  snd (handlePayment true (failTimes 3 Samples.dashboard "L2") "L2") = AlreadyCompleted.
Proof.
  apply (failed_payments_lock_out Samples.asha "L2" Samples.dashboard Samples.loanB
           3%nat true); [reflexivity | reflexivity | reflexivity | | ];
    vm_compute; discriminate.
Defined.

(** *** The synchronising effect *)

Lemma sync_fold_last (id : string) (ls : list Loan) :
  forall acc : gmap string Z,
    fold_left (fun acc loan => <[loanId loan := orZero (paidInstallments loan)]> acc)
              ls acc !! id
    = match findLoan (rev ls) id with
      | Some l => Some (paidInstallments l)
      | None => acc !! id
      end.
Proof.
  induction ls as [| a ls IH] using rev_ind; intros acc; [reflexivity|].
  rewrite fold_left_app, rev_app_distr. cbn [fold_left rev app].
  unfold findLoan. cbn [find].
  destruct (String.eqb_spec (loanId a) id) as [E | E].
  - rewrite E, lookup_insert_eq, PaymentFacts.orZero_id. reflexivity.
  - rewrite lookup_insert_ne by exact E. apply IH.
Qed.

Lemma unique_id (ls : list Loan) (a b : Loan) :
  NoDup (map loanId ls) -> In a ls -> In b ls -> loanId a = loanId b -> a = b.
Proof.
  induction ls as [| x ls IH]; intros Hnd Ha Hb Hid; [destruct Ha|].
  cbn [map] in Hnd. apply NoDup_cons in Hnd. destruct Hnd as (Hx & Hnd).
  destruct Ha as [<- | Ha], Hb as [<- | Hb].
  - reflexivity.
  - exfalso. apply Hx. rewrite Hid. apply list_elem_of_In, in_map, Hb.
  - exfalso. apply Hx. rewrite <- Hid. apply list_elem_of_In, in_map, Ha.
  - now apply IH.
Qed.

Lemma sync_lookup_unique (ls : list Loan) (id : string) (l : Loan) :
  NoDup (map loanId ls) -> findLoan ls id = Some l ->
  syncInstallments ls !! id = Some (paidInstallments l).
Proof.
  intros Hnd Hf. unfold syncInstallments. rewrite sync_fold_last, lookup_empty.
  destruct (findLoan (rev ls) id) as [l'|] eqn:Hr.
  - apply find_some in Hr. destruct Hr as (Hin' & Hid').
    apply in_rev in Hin'. apply find_some in Hf. destruct Hf as (Hin & Hid).
    apply String.eqb_eq in Hid, Hid'.
    rewrite (unique_id ls l' l Hnd Hin' Hin) by congruence. reflexivity.
  - exfalso. apply find_some in Hf. destruct Hf as (Hin & Hid).
    apply in_rev in Hin.
    pose proof (find_none _ _ Hr l Hin) as C. cbn in C. congruence.
Qed.

(** X11. After the synchronising effect, a loan id that occurs in the
    loans has the paid-installment count of the last loan with that id, and
    an id that does not occur has no entry (it shows as 0).  When the ids
    are unique, this is the count of the very loan [handlePayment] finds. *)
Theorem sync_records_loan_counts (ls : list Loan) (id : string) :
  (syncInstallments ls !! id = paidInstallments <$> findLoan (rev ls) id) /\
  (findLoan ls id = None -> syncInstallments ls !! id = None) /\
  (NoDup (map loanId ls) ->
   forall l, findLoan ls id = Some l ->
             syncInstallments ls !! id = Some (paidInstallments l)).
Proof.
  split; [| split].
  - unfold syncInstallments. rewrite sync_fold_last, lookup_empty.
    destruct (findLoan (rev ls) id); reflexivity.
  - intros Hnone. unfold syncInstallments. rewrite sync_fold_last, lookup_empty.
    destruct (findLoan (rev ls) id) as [l|] eqn:Hr; [|reflexivity].
    exfalso. apply find_some in Hr. destruct Hr as (Hin & Hid).
    apply in_rev in Hin.
    pose proof (find_none _ _ Hnone l Hin) as C. cbn in C. congruence.
  - intros Hnd l Hf. now apply sync_lookup_unique.
Qed.

Lemma sync_records_loan_counts_witness :
  syncInstallments [Samples.loanA; Samples.loanB; Samples.loanC; Samples.loanD] !! "L3"
  = Some 3%Z.
Proof.
  destruct (sync_records_loan_counts
              [Samples.loanA; Samples.loanB; Samples.loanC; Samples.loanD] "L3")
    as (_ & _ & H).
  apply (H ltac:(compute_done) Samples.loanC).
  reflexivity.
Defined.

(** X12. In a dashboard whose counts are synchronised with loans of unique
    ids, the handler decides on the loan's own [paidInstallments]: it
    rejects when they have reached the tenure and otherwise posts one
    more. *)
Theorem synced_handler_uses_loan_count (ok : bool) (st : State) (id : string)
        (u : User) (ls : list Loan) (l : Loan) :
  user st = Some u -> loans st = Some ls ->
  installmentsPaid st = syncInstallments ls ->
  NoDup (map loanId ls) -> findLoan ls id = Some l ->
  ((tenure l <= paidInstallments l)%Z ->
   snd (handlePayment ok st id) = AlreadyCompleted) /\
  ((paidInstallments l < tenure l)%Z ->
   exists body,
     snd (handlePayment ok st id) = (if ok then Paid body else PaymentFailed body) /\
     body_paidInstallments body = (paidInstallments l + 1)%Z).
Proof.
  intros Hu Hl Hsync Hnd Hf.
  assert (Hc : alreadyPaidOf st id = paidInstallments l).
  { unfold alreadyPaidOf. rewrite Hsync.
    rewrite (sync_lookup_unique ls id l Hnd Hf). cbn. apply PaymentFacts.orZero_id. }
  split; intros H.
  - apply (PaymentFacts.guard_outcome ok st id u ls l Hu Hl Hf). lia.
  - exists (payBody u (alreadyPaidOf st id) l).
    rewrite (PaymentFacts.handlePayment_processed ok st id u ls l Hu Hl Hf) by lia.
    split; [reflexivity|]. cbn. now rewrite Hc.
Qed.

Lemma synced_handler_uses_loan_count_witness :
  snd (handlePayment true Samples.dashboard "L4") = AlreadyCompleted.
Proof.
  destruct (synced_handler_uses_loan_count true Samples.dashboard "L4" Samples.asha
              [Samples.loanA; Samples.loanB; Samples.loanC; Samples.loanD] Samples.loanD)
    as (H & _);
    [reflexivity | reflexivity | reflexivity | compute_done | reflexivity |].
  apply H. vm_compute. discriminate.
Defined.

(** *** Counts and the loan card along accepted payments *)

Lemma loanAfter_paid (u : User) (id : string) (l0 : Loan) (k : nat) :
  String.eqb (loanId l0) id = true -> paidInstallments l0 = 0%Z ->
  paidInstallments (loanAfter u id l0 k) = Z.max 0 (Z.min (Z.of_nat k) (tenure l0)).
Proof.
  intros Hid H0. induction k as [| k IH].
  - cbn [loanAfter]. lia.
  - cbn [loanAfter]. destruct (Z.ltb_spec (Z.of_nat k) (tenure l0)) as [C | C].
    + rewrite PaymentFacts.storePayment_hit
        by (destruct (PaymentFacts.loanAfter_terms u id l0 k) as (-> & _); exact Hid).
      cbn [paidInstallments payBody body_paidInstallments]. lia.
    + rewrite IH. lia.
Qed.

(** X13. Along accepted payments on a loan of tenure [n >= 1] that starts
    with no installment paid, the count recorded by the dashboard and the
    loan's own [paidInstallments] agree, equal [min k n] after [k]
    attempts, and so never exceed the tenure. *)
Theorem paid_count_tracks_payments (u : User) (id : string) (st : State) (l : Loan)
        (k : nat) :
  user st = Some u -> currentLoanOf st id = Some l ->
  alreadyPaidOf st id = 0%Z -> paidInstallments l = 0%Z -> (1 <= tenure l)%Z ->
  exists lk,
    currentLoanOf (payTimes k st id) id = Some lk /\
    paidInstallments lk = Z.min (Z.of_nat k) (tenure l) /\
    alreadyPaidOf (payTimes k st id) id = paidInstallments lk /\
    (0 <= paidInstallments lk <= tenure lk)%Z.
Proof.
  intros Hu Hcur Hzero H0 Hn.
  destruct (PaymentFacts.currentLoanOf_inv st id l Hcur) as (ls & _ & Hf).
  pose proof (PaymentFacts.findLoan_hit ls id l Hf) as Hid.
  exists (loanAfter u id l k).
  destruct (PaymentFacts.payTimes_loanAfter u id st l Hu Hcur Hzero k) as (_ & Hk & Hc).
  destruct (PaymentFacts.loanAfter_terms u id l k) as (_ & Ht & _).
  rewrite Hc, Ht, (loanAfter_paid u id l k Hid H0).
  split; [exact Hk|]. repeat split; lia.
Qed.

Lemma paid_count_tracks_payments_witness :
  exists lk,
    currentLoanOf (payTimes 5 Samples.dashboard "L2") "L2" = Some lk /\
    paidInstallments lk = 3%Z.
Proof.
  destruct (paid_count_tracks_payments Samples.asha "L2" Samples.dashboard
              Samples.loanB 5%nat)
    as (lk & H1 & H2 & _);
    [reflexivity | reflexivity | reflexivity | reflexivity | vm_compute; discriminate |].
  exists lk. split; [exact H1 | exact H2].
Defined.

(** X14. The loan card along accepted payments on a loan of tenure [n >= 1]
    that starts active with no installment recorded: the progress bar
    shows [min k n / n] of 100 percent, never more than 100, and the Pay
    button is enabled while [k < n] and disabled from the [n]-th payment
    on. *)
Theorem loan_card_after_payments (u : User) (id : string) (st : State) (l : Loan)
        (k : nat) :
  user st = Some u -> currentLoanOf st id = Some l ->
  alreadyPaidOf st id = 0%Z -> status l = active -> (1 <= tenure l)%Z ->
  exists lk,
    currentLoanOf (payTimes k st id) id = Some lk /\
    progressWidth (payTimes k st id) lk
    == inject_Z (Z.min (Z.of_nat k) (tenure l)) / inject_Z (tenure l) * 100 /\
    0 <= progressWidth (payTimes k st id) lk <= 100 /\
    ((1 <= k)%nat ->
     payButtonDisabled (payTimes k st id) lk = true <-> (tenure l <= Z.of_nat k)%Z).
Proof.
  intros Hu Hcur Hzero Hact Hn.
  destruct (PaymentFacts.currentLoanOf_inv st id l Hcur) as (ls & Hl & Hf).
  pose proof (PaymentFacts.findLoan_hit ls id l Hf) as Hid.
  exists (loanAfter u id l k).
  destruct (PaymentFacts.payTimes_loanAfter u id st l Hu Hcur Hzero k) as (_ & Hk & Hc).
  destruct (PaymentFacts.loanAfter_terms u id l k) as (Hi & Ht & _).
  pose proof (PaymentFacts.loanAfter_status u id l k Hid Hn Hact) as Hs.
  assert (Hw : progressWidth (payTimes k st id) (loanAfter u id l k)
               = inject_Z (Z.min (Z.of_nat k) (tenure l)) / inject_Z (tenure l) * 100).
  { unfold progressWidth. rewrite Hi, Ht.
    apply String.eqb_eq in Hid. rewrite Hid, Hc.
    replace (Z.max 0 (Z.min (Z.of_nat k) (tenure l)))
      with (Z.min (Z.of_nat k) (tenure l)) by lia.
    reflexivity. }
  split; [exact Hk|]. split; [rewrite Hw; reflexivity|]. split.
  - rewrite Hw. pose proof (EmiFacts.inject_Z_pos _ Hn) as Hpos.
    assert (H0 : 0 <= inject_Z (Z.min (Z.of_nat k) (tenure l)))
      by (change 0 with (inject_Z 0); rewrite <- Zle_Qle; lia).
    assert (H1 : inject_Z (Z.min (Z.of_nat k) (tenure l)) <= inject_Z (tenure l))
      by (rewrite <- Zle_Qle; lia).
    split.
    + apply Qmult_le_0_compat; [|discriminate].
      apply Qle_shift_div_l; [exact Hpos | lra].
    + assert (inject_Z (Z.min (Z.of_nat k) (tenure l)) / inject_Z (tenure l) <= 1)
        by (apply Qle_shift_div_r; [exact Hpos | lra]).
      lra.
  - intros Hk1. unfold payButtonDisabled.
    assert (Hp : isProcessingPayment (payTimes k st id) = None).
    { destruct k as [| j]; [lia|]. cbn [payTimes].
      destruct (PaymentFacts.payTimes_loanAfter u id st l Hu Hcur Hzero j)
        as (Hu' & Hcur' & _).
      destruct (PaymentFacts.currentLoanOf_inv _ id _ Hcur') as (ls' & Hl' & Hf').
      destruct (Z_lt_le_dec (alreadyPaidOf (payTimes j st id) id)
                            (tenure (loanAfter u id l j))) as [C | C].
      - now rewrite (PaymentFacts.payOnce_processed _ id u ls' _ Hu' Hl' Hf' C).
      - now rewrite (PaymentFacts.payOnce_rejected _ id u ls' _ Hu' Hl' Hf' C). }
    rewrite Hp, orb_false_r.
    destruct (status (loanAfter u id l k)) eqn:E; cbn.
    + split; [discriminate|]. intros C. apply Hs in C. discriminate C.
    + split; [intros _ | reflexivity]. now apply Hs.
Qed.

Lemma loan_card_after_payments_witness :
  exists lk,
    currentLoanOf (payTimes 3 Samples.dashboard "L2") "L2" = Some lk /\
    progressWidth (payTimes 3 Samples.dashboard "L2") lk <= 100 /\
    payButtonDisabled (payTimes 3 Samples.dashboard "L2") lk = true.
Proof.
  destruct (loan_card_after_payments Samples.asha "L2" Samples.dashboard
              Samples.loanB 3%nat)
    as (lk & H1 & _ & (_ & H2) & H3);
    [reflexivity | reflexivity | reflexivity | reflexivity | vm_compute; discriminate |].
  exists lk. split; [exact H1|]. split; [exact H2|].
  apply H3; [lia | vm_compute; discriminate].
Defined.

(** *** The payments filter *)

(** X16. [fetchPayments] keeps exactly the payments whose loan is among the
    loans of the dashboard, in their original order; with no loans nothing
    is kept, and filtering the kept payments again keeps them all. *)
Theorem userPayments_keeps_known_loans {Payment : Type}
        (loanIdOf : Payment -> string) (allPayments : list Payment) (ls : list Loan) :
  (forall p, In p (userPayments loanIdOf allPayments ls)
             <-> In p allPayments /\ exists loan, In loan ls /\ loanId loan = loanIdOf p) /\
  userPayments loanIdOf allPayments ls `sublist_of` allPayments /\
  userPayments loanIdOf allPayments [] = [] /\
  userPayments loanIdOf (userPayments loanIdOf allPayments ls) ls
  = userPayments loanIdOf allPayments ls.
Proof.
  unfold userPayments. split; [| split; [| split]].
  - intros p. rewrite filter_In, existsb_exists.
    split; intros (Hin & loan & Hl & Hid); (split; [exact Hin|]);
      exists loan; (split; [exact Hl|]); now apply String.eqb_eq.
  - induction allPayments as [| p ps IH]; [constructor|].
    cbn [List.filter].
    destruct (existsb (fun loan => String.eqb (loanId loan) (loanIdOf p)) ls).
    + now apply sublist_skip.
    + now apply sublist_cons.
  - induction allPayments as [| p ps IH]; [reflexivity | exact IH].
  - induction allPayments as [| p ps IH]; [reflexivity|].
    cbn [List.filter].
    destruct (existsb (fun loan => String.eqb (loanId loan) (loanIdOf p)) ls) eqn:E.
    + cbn [List.filter]. rewrite E. now f_equal.
    + exact IH.
Qed.

(** *** The client-side statistics *)

Lemma sum_shift {A : Type} (f : A -> Q) (xs : list A) (acc : Q) :
  fold_left (fun sum x => sum + f x) xs acc
  == acc + fold_left (fun sum x => sum + f x) xs 0.
Proof.
  revert acc. induction xs as [| x xs IH]; intros acc; cbn [fold_left]; [ring|].
  rewrite (IH (acc + f x)), (IH (0 + f x)). ring.
Qed.

Lemma sum_app {A : Type} (f : A -> Q) (xs ys : list A) :
  fold_left (fun sum x => sum + f x) (xs ++ ys) 0
  == fold_left (fun sum x => sum + f x) xs 0
     + fold_left (fun sum x => sum + f x) ys 0.
Proof. rewrite fold_left_app. apply sum_shift. Qed.

Lemma storePayment_miss (id : string) (b : PayBody) (xs : list Loan) :
  (forall x, In x xs -> loanId x <> id) -> map (storePayment id b) xs = xs.
Proof.
  intros H. induction xs as [| x xs IH]; [reflexivity|].
  cbn [map]. rewrite IH by (intros y Hy; apply H; now right). f_equal.
  unfold storePayment. destruct (String.eqb_spec (loanId x) id) as [E | E]; [|reflexivity].
  exfalso. apply (H x); [now left | exact E].
Qed.

Lemma principal_sum_store (id : string) (b : PayBody) (xs : list Loan) (acc : Q) :
  fold_left (fun sum loan => sum + principalAmount loan)
            (map (storePayment id b) xs) acc
  = fold_left (fun sum loan => sum + principalAmount loan) xs acc.
Proof.
  revert acc. induction xs as [| x xs IH]; intros acc; [reflexivity|].
  cbn [map fold_left]. rewrite IH.
  replace (principalAmount (storePayment id b x)) with (principalAmount x);
    [reflexivity|].
  unfold storePayment. now destruct (String.eqb (loanId x) id).
Qed.

Lemma split_at_loan (ls : list Loan) (id : string) (l : Loan) :
  NoDup (map loanId ls) -> findLoan ls id = Some l ->
  exists l1 l2,
    ls = l1 ++ l :: l2 /\
    (forall x, In x l1 -> loanId x <> id) /\
    (forall x, In x l2 -> loanId x <> id).
Proof.
  intros Hnd Hf. apply find_some in Hf. destruct Hf as (Hin & Hid).
  apply String.eqb_eq in Hid.
  destruct (in_split _ _ Hin) as (l1 & l2 & ->). exists l1, l2.
  split; [reflexivity|].
  rewrite map_app in Hnd. cbn [map] in Hnd.
  apply NoDup_app in Hnd. destruct Hnd as (_ & Hdisj & Hnd2).
  apply NoDup_cons in Hnd2. destruct Hnd2 as (Hnot & _).
  split; intros x Hx Hxid.
  - apply (Hdisj (loanId x)).
    + apply list_elem_of_In, in_map, Hx.
    + rewrite Hxid, <- Hid. left.
  - apply Hnot. rewrite Hid, <- Hxid. apply list_elem_of_In, in_map, Hx.
Qed.

(** X15. What an accepted payment does to the client-side statistics: the
    number of loans and the total principal never change.  When the loan
    ids are unique and the paid loan was active, a payment that is not the
    last one leaves all five figures as they were, and the last one moves
    the loan from the active to the completed count and takes its
    installment out of the total EMI. *)
Theorem stats_after_payment (st : State) (id : string)
        (u : User) (ls : list Loan) (l : Loan) :
  user st = Some u -> loans st = Some ls -> findLoan ls id = Some l ->
  (alreadyPaidOf st id < tenure l)%Z ->
  exists ls',
    loans (payOnce st id) = Some ls' /\
    (forall prev, statsEffect (Some ls') prev = clientStats ls') /\
    totalLoans (clientStats ls') = totalLoans (clientStats ls) /\
    totalPrincipal (clientStats ls') = totalPrincipal (clientStats ls) /\
    (NoDup (map loanId ls) -> status l = active ->
     ((alreadyPaidOf st id + 1 < tenure l)%Z ->
      activeLoans (clientStats ls') = activeLoans (clientStats ls) /\
      completedLoans (clientStats ls') = completedLoans (clientStats ls) /\
      totalEMI (clientStats ls') == totalEMI (clientStats ls)) /\
     ((tenure l <= alreadyPaidOf st id + 1)%Z ->
      activeLoans (clientStats ls') = (activeLoans (clientStats ls) - 1)%Z /\
      completedLoans (clientStats ls') = (completedLoans (clientStats ls) + 1)%Z /\
      totalEMI (clientStats ls') == totalEMI (clientStats ls) - emiAmount l)).
Proof.
  intros Hu Hl Hf Hc.
  set (b := payBody u (alreadyPaidOf st id) l).
  exists (map (storePayment id b) ls).
  rewrite (PaymentFacts.payOnce_processed st id u ls l Hu Hl Hf Hc). fold b.
  split; [reflexivity|]. split; [| split; [| split]].
  - intros prev. unfold statsEffect. rewrite length_map.
    apply find_some in Hf. destruct Hf as (Hin & _).
    destruct ls as [| x xs]; [destruct Hin | reflexivity].
  - cbn [clientStats totalLoans]. now rewrite length_map.
  - cbn [clientStats totalPrincipal]. apply principal_sum_store.
  - intros Hnd Hact.
    destruct (split_at_loan ls id l Hnd Hf) as (l1 & l2 & -> & H1 & H2).
    pose proof (PaymentFacts.findLoan_hit _ id l Hf) as Hid.
    rewrite map_app. cbn [map].
    rewrite (storePayment_miss id b l1 H1), (storePayment_miss id b l2 H2).
    rewrite (PaymentFacts.storePayment_hit id b l Hid).
    cbn [clientStats activeLoans completedLoans totalEMI].
    rewrite !List.filter_app. cbn [List.filter].
    unfold hasStatus. cbn [status]. rewrite Hact.
    subst b. cbn [payBody body_status].
    split; intros Hk.
    + destruct (Z.geb_spec (alreadyPaidOf st id + 1) (tenure l)) as [C | _]; [lia|].
      rewrite !length_app. cbn [length].
      split; [reflexivity|]. split; [reflexivity|].
      rewrite !sum_app. cbn [fold_left emiAmount]. reflexivity.
    + destruct (Z.geb_spec (alreadyPaidOf st id + 1) (tenure l)) as [_ | C]; [|lia].
      rewrite !length_app. cbn [length].
      split; [lia|]. split; [lia|].
      rewrite !sum_app. cbn [fold_left].
      rewrite (sum_shift emiAmount _ (0 + emiAmount l)). ring.
Qed.


Lemma stats_after_payment_witness :
  exists ls',
    loans (payOnce Samples.dashboard "L2") = Some ls' /\
    totalLoans (clientStats ls') = 4%Z /\
    activeLoans (clientStats ls') = 2%Z.
Proof.
  destruct (stats_after_payment Samples.dashboard "L2" Samples.asha
              [Samples.loanA; Samples.loanB; Samples.loanC; Samples.loanD]
              Samples.loanB)
    as (ls' & H1 & _ & H2 & _ & H3);
    [reflexivity | reflexivity | reflexivity | vm_compute; reflexivity |].
  exists ls'. split; [exact H1|]. split; [exact H2|].
  destruct (H3 ltac:(compute_done) eq_refl) as (Hnonfinal & _).
  destruct Hnonfinal as (Ha & _); [vm_compute; reflexivity|].
  exact Ha.
Defined.

(** *** Calendar steps from a day that every month has *)

Lemma dueAfter_civil (t : Z) (k : nat) :
  let c := civilFromDays (Day t) in
  (cDate c <= 28)%Z ->
  civilFromDays (Day (dueAfter k t))
  = mkCivil ((12 * cYear c + cMonth c + Z.of_nat k) / 12)
            ((12 * cYear c + cMonth c + Z.of_nat k) mod 12) (cDate c) /\
  TimeWithinDay (dueAfter k t) = TimeWithinDay t.
Proof.
  intros c Hd.
  pose proof (DateFacts.civilFromDays_valid (Day t)) as Hv. fold c in Hv.
  unfold validCivil in Hv. rewrite !andb_true_iff, !Z.leb_le in Hv.
  destruct Hv as (((Hm0 & Hm1) & _) & _).
  induction k as [| k (IHc & IHt)].
  - cbn [dueAfter]. split; [|reflexivity]. fold c.
    replace ((12 * cYear c + cMonth c + Z.of_nat 0) / 12)%Z with (cYear c)
      by (Z.div_mod_to_equations; lia).
    replace ((12 * cYear c + cMonth c + Z.of_nat 0) mod 12)%Z with (cMonth c)
      by (Z.div_mod_to_equations; lia).
    now destruct c.
  - cbn [dueAfter].
    destruct (DateFacts.setMonth_next_month (dueAfter k t)) as (Ht & Hfit & _).
    cbv zeta in Hfit. rewrite IHc in Hfit. cbn [cYear cMonth cDate] in Hfit.
    split; [| now rewrite Ht].
    rewrite Hfit.
    + unfold nextMonth. cbn [fst snd]. f_equal; Z.div_mod_to_equations; lia.
    + match goal with
      | |- (_ <= daysInMonth ?y ?m)%Z => pose proof (DateFacts.daysInMonth_range y m)
      end. lia.
Qed.

End EffectFacts.

(** ** Completed loans in the states the dashboard can reach *)

Module TerminalFacts.
Import JsNum JsDate LendingRecords Dashboard DashboardEffects.

Lemma findLoan_map_store (j : string) (b : PayBody) (ls : list Loan) (id : string) :
  findLoan (map (storePayment j b) ls) id = storePayment j b <$> findLoan ls id.
Proof.
  unfold findLoan. induction ls as [| a ls IH]; [reflexivity|].
  cbn [map find]. rewrite PaymentFacts.storePayment_id.
  destruct (String.eqb (loanId a) id); [reflexivity | exact IH].
Qed.

Lemma storePayment_other (j : string) (b : PayBody) (x : Loan) :
  loanId x <> j -> storePayment j b x = x.
Proof.
  intros H. unfold storePayment.
  destruct (String.eqb_spec (loanId x) j); [contradiction | reflexivity].
Qed.

(** The count that the synchronising effect records for an id is the
    [paidInstallments] of one of the loans with that id. *)
Lemma sync_lookup_some (ls : list Loan) (id : string) (l : Loan) :
  findLoan ls id = Some l ->
  exists x, In x ls /\ loanId x = id /\
            syncInstallments ls !! id = Some (paidInstallments x).
Proof.
  intros Hf. unfold syncInstallments.
  rewrite EffectFacts.sync_fold_last, lookup_empty.
  destruct (findLoan (rev ls) id) as [x|] eqn:Hr.
  - apply find_some in Hr. destruct Hr as (Hin & Hid).
    exists x. split; [now apply in_rev|]. split; [now apply String.eqb_eq | reflexivity].
  - exfalso. apply find_some in Hf. destruct Hf as (Hin & Hid).
    apply in_rev in Hin. pose proof (find_none _ _ Hr l Hin) as C. cbn in C. congruence.
Qed.

Lemma terminalInv_same (u : User) (id : string) (st st' : State) :
  user st' = user st -> loans st' = loans st ->
  installmentsPaid st' !! id = installmentsPaid st !! id ->
  terminalInv u id st -> terminalInv u id st'.
Proof.
  intros Hu Hl Hc (Iu & ls & l & Il & If & Ic).
  split; [congruence|]. exists ls, l. split; [congruence|]. split; [exact If|].
  unfold alreadyPaidOf. rewrite Hc. exact Ic.
Qed.

Lemma terminalInv_resynced (u : User) (id : string) (st st' : State)
      (ls : list Loan) (l : Loan) :
  user st' = Some u -> loans st' = Some ls ->
  installmentsPaid st' = syncInstallments ls ->
  findLoan ls id = Some l ->
  (status l = completed ->
   forall x, In x ls -> loanId x = id -> (tenure l <= paidInstallments x)%Z) ->
  terminalInv u id st'.
Proof.
  intros Hu Hl Hc Hf Hall. split; [exact Hu|]. exists ls, l.
  split; [exact Hl|]. split; [exact Hf|]. intros Hs. split; [|now apply Hall].
  destruct (sync_lookup_some ls id l Hf) as (x & Hin & Hid & Hx).
  unfold alreadyPaidOf. rewrite Hc, Hx. cbn. rewrite PaymentFacts.orZero_id.
  now apply (Hall Hs x).
Qed.

Lemma terminalInv_accepted (u : User) (id j : string) (st : State) :
  terminalInv u id st -> terminalInv u id (payOnce st j).
Proof.
  intros Inv. pose proof Inv as (Iu & ls & l & Il & If & Ic).
  destruct (findLoan ls j) as [lj|] eqn:Hj.
  - destruct (Z_lt_le_dec (alreadyPaidOf st j) (tenure lj)) as [Hc | Hc].
    + rewrite (PaymentFacts.payOnce_processed st j u ls lj Iu Il Hj Hc).
      set (b := payBody u (alreadyPaidOf st j) lj).
      apply (terminalInv_resynced u id st _ (map (storePayment j b) ls)
                                  (storePayment j b l)); try reflexivity.
      * rewrite findLoan_map_store, If. reflexivity.
      * destruct (String.eqb_spec j id) as [-> | Hne].
        -- assert (lj = l) by congruence. subst lj.
           pose proof (PaymentFacts.findLoan_hit ls id l If) as Hid.
           rewrite (PaymentFacts.storePayment_hit id b l Hid).
           cbn [status tenure]. subst b. cbn [payBody body_status].
           destruct (Z.geb_spec (alreadyPaidOf st id + 1) (tenure l)) as [D | D];
             [|discriminate].
           intros _ x Hx Hxid. apply in_map_iff in Hx. destruct Hx as (y & <- & Hy).
           rewrite PaymentFacts.storePayment_id in Hxid.
           rewrite PaymentFacts.storePayment_hit by (now apply String.eqb_eq).
           cbn [paidInstallments payBody body_paidInstallments]. lia.
        -- assert (Hlid : loanId l = id)
             by (apply String.eqb_eq; now apply (PaymentFacts.findLoan_hit ls)).
           rewrite storePayment_other by congruence.
           intros Hs x Hx Hxid. apply in_map_iff in Hx. destruct Hx as (y & <- & Hy).
           rewrite PaymentFacts.storePayment_id in Hxid.
           rewrite storePayment_other by congruence.
           destruct (Ic Hs) as (_ & Hall). now apply Hall.
    + rewrite (PaymentFacts.payOnce_rejected st j u ls lj Iu Il Hj Hc).
      now apply (terminalInv_same u id st).
  - unfold payOnce, handlePayment. rewrite Iu, Il, Hj.
    now apply (terminalInv_same u id st).
Qed.

Lemma terminalInv_failed (u : User) (id j : string) (st : State) :
  terminalInv u id st -> terminalInv u id (failOnce st j).
Proof.
  intros Inv. pose proof Inv as (Iu & ls & l & Il & If & Ic).
  unfold failOnce.
  destruct (findLoan ls j) as [lj|] eqn:Hj.
  - destruct (Z_lt_le_dec (alreadyPaidOf st j) (tenure lj)) as [Hc | Hc].
    + rewrite (PaymentFacts.handlePayment_processed false st j u ls lj Iu Il Hj Hc).
      cbn [fst]. split; [reflexivity|]. exists ls, l.
      split; [reflexivity|]. split; [exact If|].
      intros Hs. destruct (Ic Hs) as (Hcount & Hall). split; [|exact Hall].
      unfold alreadyPaidOf in *. cbn [installmentsPaid].
      destruct (String.eqb_spec j id) as [-> | Hne].
      * rewrite lookup_insert_eq. cbn. rewrite PaymentFacts.orZero_id.
        change (undefOrZero (installmentsPaid st !! id)) with (alreadyPaidOf st id).
        unfold alreadyPaidOf. lia.
      * rewrite lookup_insert_ne by exact Hne. exact Hcount.
    + rewrite (PaymentFacts.handlePayment_rejected false st j u ls lj Iu Il Hj Hc).
      now apply (terminalInv_same u id st).
  - unfold handlePayment. rewrite Iu, Il, Hj. cbn [fst].
    now apply (terminalInv_same u id st).
Qed.

Lemma terminalInv_resync (u : User) (id : string) (st : State) :
  terminalInv u id st -> terminalInv u id (resync st).
Proof.
  intros (Iu & ls & l & Il & If & Ic). unfold resync. rewrite Il.
  apply (terminalInv_resynced u id st _ ls l); try reflexivity; [exact Iu | exact If|].
  intros Hs. now destruct (Ic Hs).
Qed.

Lemma terminalInv_reachable (u : User) (id : string) (st0 st : State) :
  terminalInv u id st0 -> reachableFrom st0 st -> terminalInv u id st.
Proof.
  intros H0 Hr. induction Hr as [| st j _ IH | st j _ IH | st _ IH].
  - exact H0.
  - now apply terminalInv_accepted.
  - now apply terminalInv_failed.
  - now apply terminalInv_resync.
Qed.

(** C6. In every state the dashboard reaches from one in which the loan is
    active (by payment attempts on any loan, accepted or failed, and by
    the synchronising effect), a loan whose status is completed is
    terminal: a further payment attempt ends with the 'Loan Completed'
    notice, nothing is posted, and the loans, the recorded counts and hence
    the loan state stay exactly as they were. *)
Theorem completed_is_terminal (ok : bool) (st0 st : State) (id : string)
        (u : User) (ls0 : list Loan) (l0 l : Loan) :
  user st0 = Some u -> loans st0 = Some ls0 -> findLoan ls0 id = Some l0 ->
  status l0 = active ->
  reachableFrom st0 st ->
  currentLoanOf st id = Some l -> status l = completed ->
  snd (handlePayment ok st id) = AlreadyCompleted /\
  loans (fst (handlePayment ok st id)) = loans st /\
  installmentsPaid (fst (handlePayment ok st id)) = installmentsPaid st /\
  currentLoanOf (handlePaymentCall ok st id) id = Some l /\
  installmentsPaid (handlePaymentCall ok st id) = installmentsPaid st.
Proof.
  intros Hu Hl Hf Hact Hreach Hcur Hs.
  assert (H0 : terminalInv u id st0).
  { split; [exact Hu|]. exists ls0, l0. split; [exact Hl|]. split; [exact Hf|].
    rewrite Hact. discriminate. }
  destruct (terminalInv_reachable u id st0 st H0 Hreach) as (Iu & ls & l' & Il & If & Ic).
  assert (l' = l) by (unfold currentLoanOf in Hcur; rewrite Il in Hcur; congruence).
  subst l'. destruct (Ic Hs) as (Hcount & _).
  unfold handlePaymentCall.
  rewrite (PaymentFacts.handlePayment_rejected ok st id u ls l Iu Il If Hcount).
  cbn [fst snd setProcessing loans installmentsPaid]. unfold currentLoanOf.
  cbn [loans]. rewrite Il. auto.
Qed.

Lemma completed_is_terminal_witness :
  snd (handlePayment true (payTimes 3 Samples.dashboard "L2") "L2") = AlreadyCompleted /\
  installmentsPaid (handlePaymentCall true (payTimes 3 Samples.dashboard "L2") "L2")
  = installmentsPaid (payTimes 3 Samples.dashboard "L2").
Proof.
  assert (Hr : reachableFrom Samples.dashboard (payTimes 3 Samples.dashboard "L2"))
    by (cbn [payTimes]; repeat apply reach_accepted; apply reach_start).
  destruct (completed_is_terminal true Samples.dashboard
              (payTimes 3 Samples.dashboard "L2") "L2" Samples.asha
              [Samples.loanA; Samples.loanB; Samples.loanC; Samples.loanD]
              Samples.loanB (loanAfter Samples.asha "L2" Samples.loanB 3)
              eq_refl eq_refl eq_refl eq_refl Hr)
    as (H1 & _ & _ & _ & H2); [vm_compute; reflexivity | reflexivity |].
  split; [exact H1 | exact H2].
Defined.

End TerminalFacts.

(** ** The whole call, and the handler in other time zones *)

Module CallFacts.
Import JsNum JsDate LendingRecords Dashboard DashboardEffects ZonedDashboard.

(** X6. [handlePayment] posts a request only when the user and the loans
    are present, the loan is found and its recorded count is below its
    tenure.  When one of these fails nothing is posted and the whole call
    leaves the user, the loans and the recorded counts as they were. *)
Theorem handlePayment_posts_only_past_guard (ok : bool) (st : State) (id : string) :
  (forall body,
     snd (handlePayment ok st id) = Paid body \/
     snd (handlePayment ok st id) = PaymentFailed body ->
     exists u ls l,
       user st = Some u /\ loans st = Some ls /\ findLoan ls id = Some l /\
       (alreadyPaidOf st id < tenure l)%Z) /\
  ((~ exists u ls l,
        user st = Some u /\ loans st = Some ls /\ findLoan ls id = Some l /\
        (alreadyPaidOf st id < tenure l)%Z) ->
   (forall body, snd (handlePayment ok st id) <> Paid body /\
                 snd (handlePayment ok st id) <> PaymentFailed body) /\
   user (handlePaymentCall ok st id) = user st /\
   loans (handlePaymentCall ok st id) = loans st /\
   installmentsPaid (handlePaymentCall ok st id) = installmentsPaid st).
Proof.
  unfold handlePaymentCall.
  destruct (user st) as [u|] eqn:Hu; [destruct (loans st) as [ls|] eqn:Hl|].
  - destruct (findLoan ls id) as [l|] eqn:Hf.
    + destruct (Z_lt_le_dec (alreadyPaidOf st id) (tenure l)) as [Hc | Hc].
      * split.
        -- intros _ _. exists u, ls, l. auto.
        -- intros H. exfalso. apply H. exists u, ls, l. auto.
      * rewrite (PaymentFacts.handlePayment_rejected ok st id u ls l Hu Hl Hf Hc).
        cbn [fst snd setProcessing user loans installmentsPaid]. split.
        -- intros b [C | C]; discriminate C.
        -- intros _. split; [|auto]. intros b. split; discriminate.
    + unfold handlePayment. rewrite Hu, Hl, Hf.
      cbn [fst snd setProcessing user loans installmentsPaid]. split.
      * intros b [C | C]; discriminate C.
      * intros _. split; [|auto]. intros b. split; discriminate.
  - unfold handlePayment. rewrite Hu, Hl. cbn [fst snd]. split.
    + intros b [C | C]; discriminate C.
    + intros _. split; [|auto]. intros b. split; discriminate.
  - unfold handlePayment. rewrite Hu. cbn [fst snd]. split.
    + intros b [C | C]; discriminate C.
    + intros _. split; [|auto]. intros b. split; discriminate.
Qed.

Lemma handlePayment_posts_only_past_guard_witness :
  installmentsPaid (handlePaymentCall true Samples.dashboard "L4")
  = installmentsPaid Samples.dashboard /\
  loans (handlePaymentCall true Samples.dashboard "L4") = loans Samples.dashboard.
Proof.
  destruct (handlePayment_posts_only_past_guard true Samples.dashboard "L4")
    as (_ & H).
  destruct H as (_ & _ & H1 & H2).
  - intros (u & ls & l & _ & Hl & Hf & Hc).
    injection Hl as <-. vm_compute in Hf. injection Hf as <-.
    vm_compute in Hc. discriminate Hc.
  - split; [exact H2 | exact H1].
Defined.

Lemma sync_store_other (id id' : string) (b : PayBody) (ls : list Loan) :
  id <> id' ->
  syncInstallments (map (storePayment id b) ls) !! id' = syncInstallments ls !! id'.
Proof.
  intros Hne. unfold syncInstallments.
  rewrite !EffectFacts.sync_fold_last, !lookup_empty, <- map_rev.
  rewrite TerminalFacts.findLoan_map_store.
  destruct (findLoan (rev ls) id') as [x|] eqn:Hr; [|reflexivity].
  cbn. apply find_some in Hr. destruct Hr as (_ & Hid). apply String.eqb_eq in Hid.
  rewrite TerminalFacts.storePayment_other by congruence. reflexivity.
Qed.

(** X7. What a call for loan [id] does to the count recorded for another
    loan: a call whose request fails leaves it as it was; a call whose
    request is accepted ends with the refetch, after which the count is
    the stored [paidInstallments] of that loan again, whatever was
    recorded before (a count raised by failed attempts is taken back). *)
Theorem other_counts_after_call (st : State) (id id' : string)
        (u : User) (ls : list Loan) (l : Loan) :
  user st = Some u -> loans st = Some ls -> findLoan ls id = Some l ->
  (alreadyPaidOf st id < tenure l)%Z -> id <> id' ->
  installmentsPaid (handlePaymentCall false st id) !! id' = installmentsPaid st !! id' /\
  installmentsPaid (handlePaymentCall true st id) !! id' = syncInstallments ls !! id'.
Proof.
  intros Hu Hl Hf Hc Hne. unfold handlePaymentCall.
  rewrite (PaymentFacts.handlePayment_processed false st id u ls l Hu Hl Hf Hc).
  rewrite (PaymentFacts.handlePayment_processed true st id u ls l Hu Hl Hf Hc).
  cbn [installmentsPaid refetch loans]. split.
  - now apply lookup_insert_ne.
  - now apply sync_store_other.
Qed.

Lemma other_counts_after_call_witness :
  installmentsPaid (failOnce Samples.dashboard "L2") !! "L2" = Some 1%Z /\
  installmentsPaid (handlePaymentCall true (failOnce Samples.dashboard "L2") "L1") !! "L2"
  = Some 0%Z.
Proof.
  split; [vm_compute; reflexivity|].
  destruct (other_counts_after_call (failOnce Samples.dashboard "L2") "L1" "L2"
              Samples.asha
              [Samples.loanA; Samples.loanB; Samples.loanC; Samples.loanD]
              Samples.loanA)
    as (_ & H);
    [reflexivity | reflexivity | reflexivity | vm_compute; reflexivity | discriminate |].
  rewrite H. vm_compute. reflexivity.
Defined.

End CallFacts.

(** ** The payment handler in any time zone *)

Module ZonedFacts.
Import JsNum JsDate LendingRecords Dashboard DashboardEffects ZonedDashboard.

(** [setMonth(getMonth() + 1)] in a zone is the calendar step of
    [JsDate.setMonth] on the local time value, taken back to UTC. *)
Lemma nextDueIn_local (z : Zone) (l : Loan) :
  nextDueIn z l
  = UTC z (setMonth (LocalTime z (baseDate l)) (getMonth (LocalTime z (baseDate l)) + 1)).
Proof. unfold nextDueIn, setMonthIn, getMonthIn, setMonth, getMonth. reflexivity. Qed.


Lemma handlePaymentIn_utc (ok : bool) (st : State) (id : string) :
  handlePaymentIn utcZone ok st id = handlePayment ok st id.
Proof.
  assert (Hb : forall u c l, payBodyIn utcZone u c l = payBody u c l).
  { intros u c l. unfold payBodyIn, payBody, nextDueIn, nextDue, setMonthIn, getMonthIn,
      setMonth, getMonth, LocalTime, UTC. cbn [utcZone fixedZone LocalTZA].
    now rewrite Z.add_0_r, Z.sub_0_r. }
  unfold handlePaymentIn, handlePayment.
  destruct (user st); [|reflexivity]. destruct (loans st); [|reflexivity].
  destruct (findLoan l id); [|reflexivity]. cbv zeta. now rewrite Hb.
Qed.

Lemma fixedZone_round_trip (offset t : Z) :
  LocalTime (fixedZone offset) (UTC (fixedZone offset) t) = t.
Proof. unfold LocalTime, UTC. cbn. lia. Qed.

Lemma handlePaymentIn_rejected (z : Zone) (ok : bool) (st : State) (id : string)
      (u : User) (ls : list Loan) (l : Loan) :
  user st = Some u -> loans st = Some ls -> findLoan ls id = Some l ->
  (tenure l <= alreadyPaidOf st id)%Z ->
  handlePaymentIn z ok st id = (setProcessing st None, AlreadyCompleted).
Proof.
  intros Hu Hl Hf Hc. unfold handlePaymentIn. rewrite Hu, Hl, Hf.
  change (alreadyPaidOf (setProcessing st (Some id)) id) with (alreadyPaidOf st id).
  destruct (Z.geb_spec (alreadyPaidOf st id) (tenure l)) as [_ | C]; [reflexivity | lia].
Qed.

Lemma handlePaymentIn_processed (z : Zone) (ok : bool) (st : State) (id : string)
      (u : User) (ls : list Loan) (l : Loan) :
  user st = Some u -> loans st = Some ls -> findLoan ls id = Some l ->
  (alreadyPaidOf st id < tenure l)%Z ->
  let body := payBodyIn z u (alreadyPaidOf st id) l in
  handlePaymentIn z ok st id =
  ({| user := Some u; loans := Some ls;
      installmentsPaid := <[id := (alreadyPaidOf st id + 1)%Z]> (installmentsPaid st);
      isProcessingPayment := None |},
   if ok then Paid body else PaymentFailed body).
Proof.
  intros Hu Hl Hf Hc body. unfold handlePaymentIn. rewrite Hu, Hl, Hf.
  change (alreadyPaidOf (setProcessing st (Some id)) id) with (alreadyPaidOf st id).
  destruct (Z.geb_spec (alreadyPaidOf st id) (tenure l)) as [C | _]; [lia |].
  unfold setProcessing, setInstallmentsPaid. cbn. rewrite Hu, Hl. reflexivity.
Qed.

(** X4. In whatever time zone the browser runs, a payment that is the last
    one posts no next due date, and any other applied payment posts the
    instant [UTC(L)] of a local date and time [L] that has the local time
    of day of the previous due date ([createdAt] when there is none) and,
    on the local calendar, the same day of the next month when that month
    has such a day; when it is shorter, [L] runs over into the month after
    it by the excess days. *)
Theorem next_due_date_posted_in (z : Zone) (st : State) (id : string)
        (u : User) (ls : list Loan) (l : Loan) :
  user st = Some u -> loans st = Some ls -> findLoan ls id = Some l ->
  (alreadyPaidOf st id < tenure l)%Z ->
  exists body,
    snd (handlePaymentIn z true st id) = Paid body /\
    ((tenure l <= alreadyPaidOf st id + 1)%Z -> body_nextDueDate body = None) /\
    ((alreadyPaidOf st id + 1 < tenure l)%Z ->
     let tl := LocalTime z (baseDate l) in
     let c := civilFromDays (Day tl) in
     let y' := fst (nextMonth (cYear c) (cMonth c)) in
     let m' := snd (nextMonth (cYear c) (cMonth c)) in
     exists L,
       body_nextDueDate body = Some (UTC z L) /\
       TimeWithinDay L = TimeWithinDay tl /\
       ((cDate c <= daysInMonth y' m')%Z ->
        civilFromDays (Day L) = mkCivil y' m' (cDate c)) /\
       ((daysInMonth y' m' < cDate c)%Z ->
        civilFromDays (Day L)
        = mkCivil (fst (nextMonth y' m')) (snd (nextMonth y' m'))
                  (cDate c - daysInMonth y' m')%Z)).
Proof.
  intros Hu Hl Hf Hc. exists (payBodyIn z u (alreadyPaidOf st id) l).
  rewrite (handlePaymentIn_processed z true st id u ls l Hu Hl Hf Hc).
  split; [reflexivity|]. cbn [payBodyIn body_nextDueDate]. split.
  - intros H. destruct (Z.geb_spec (alreadyPaidOf st id + 1) (tenure l)); [reflexivity | lia].
  - intros H. cbv zeta.
    destruct (Z.geb_spec (alreadyPaidOf st id + 1) (tenure l)); [lia|].
    exists (setMonth (LocalTime z (baseDate l))
                     (getMonth (LocalTime z (baseDate l)) + 1)).
    split; [now rewrite nextDueIn_local|].
    exact (DateFacts.setMonth_next_month (LocalTime z (baseDate l))).
Qed.

Lemma next_due_date_posted_in_witness :
  exists body L,
    snd (handlePaymentIn (fixedZone 19800000) true Samples.dashboard "L1") = Paid body /\
    body_nextDueDate body = Some (UTC (fixedZone 19800000) L) /\
    civilFromDays (Day L) = mkCivil 2024 2 2.
Proof.
  destruct (next_due_date_posted_in (fixedZone 19800000) Samples.dashboard "L1"
              Samples.asha
              [Samples.loanA; Samples.loanB; Samples.loanC; Samples.loanD]
              Samples.loanA)
    as (body & Hb & _ & Hnext);
    [reflexivity | reflexivity | reflexivity | vm_compute; reflexivity |].
  destruct Hnext as (L & HL & _ & _ & Hover); [vm_compute; reflexivity|].
  exists body, L. split; [exact Hb|]. split; [exact HL|].
  apply Hover. vm_compute. reflexivity.
Defined.

(** *** Sequences of accepted payments in a zone *)

Lemma payOnceIn_loan (z : Zone) (st : State) (id : string) (u : User) (l : Loan) :
  user st = Some u -> currentLoanOf st id = Some l ->
  let c := alreadyPaidOf st id in
  user (payOnceIn z st id) = Some u /\
  ((c < tenure l)%Z ->
   currentLoanOf (payOnceIn z st id) id = Some (storePayment id (payBodyIn z u c l) l) /\
   alreadyPaidOf (payOnceIn z st id) id = (c + 1)%Z) /\
  ((tenure l <= c)%Z ->
   currentLoanOf (payOnceIn z st id) id = Some l /\
   alreadyPaidOf (payOnceIn z st id) id = c).
Proof.
  intros Hu Hcur c.
  destruct (PaymentFacts.currentLoanOf_inv st id l Hcur) as (ls & Hl & Hf).
  unfold payOnceIn.
  destruct (Z_lt_le_dec c (tenure l)) as [Hc | Hc].
  - rewrite (handlePaymentIn_processed z true st id u ls l Hu Hl Hf Hc).
    fold c. split; [reflexivity|].
    split; [intros _ | intros C; subst c; lia].
    unfold currentLoanOf, alreadyPaidOf. cbn.
    rewrite (PaymentFacts.findLoan_store id _ ls l Hf),
            (PaymentFacts.sync_after_store id _ ls l Hf).
    split; [reflexivity|]. cbn. now rewrite !PaymentFacts.orZero_id.
  - rewrite (handlePaymentIn_rejected z true st id u ls l Hu Hl Hf Hc).
    split; [exact Hu|]. split; [intros C; subst c; lia | intros _].
    unfold currentLoanOf, alreadyPaidOf. cbn. rewrite Hl. split; [exact Hf | reflexivity].
Qed.

Lemma loanAfterIn_terms (z : Zone) (u : User) (id : string) (l0 : Loan) (k : nat) :
  loanId (loanAfterIn z u id l0 k) = loanId l0 /\
  tenure (loanAfterIn z u id l0 k) = tenure l0.
Proof.
  induction k as [| k IH]; [tauto|]. cbn [loanAfterIn].
  destruct (Z.of_nat k <? tenure l0)%Z; [|exact IH].
  unfold storePayment.
  destruct (String.eqb (loanId (loanAfterIn z u id l0 k)) id); [cbn | ]; exact IH.
Qed.

Lemma payTimesIn_loanAfterIn (z : Zone) (u : User) (id : string) (st0 : State)
      (l0 : Loan) (k : nat) :
  user st0 = Some u -> currentLoanOf st0 id = Some l0 -> alreadyPaidOf st0 id = 0%Z ->
  user (payTimesIn z k st0 id) = Some u /\
  currentLoanOf (payTimesIn z k st0 id) id = Some (loanAfterIn z u id l0 k) /\
  alreadyPaidOf (payTimesIn z k st0 id) id
  = Z.max 0 (Z.min (Z.of_nat k) (tenure l0)).
Proof.
  intros Huser Hcur Hzero.
  induction k as [| k (IHu & IHl & IHc)].
  - cbn [payTimesIn loanAfterIn]. rewrite Hzero. repeat split; [assumption.. | lia].
  - cbn [payTimesIn loanAfterIn].
    destruct (payOnceIn_loan z _ id u _ IHu IHl) as (Hu' & Hlt & Hge).
    destruct (loanAfterIn_terms z u id l0 k) as (_ & Ht).
    rewrite Ht, IHc in Hlt, Hge.
    split; [exact Hu'|].
    destruct (Z.ltb_spec (Z.of_nat k) (tenure l0)) as [C | C].
    + replace (Z.max 0 (Z.min (Z.of_nat k) (tenure l0))) with (Z.of_nat k)
        in Hlt by lia.
      destruct (Hlt C) as (H1 & H2). rewrite H1, H2.
      split; [reflexivity | lia].
    + destruct (Z_lt_le_dec (Z.max 0 (Z.min (Z.of_nat k) (tenure l0))) (tenure l0))
        as [D | D]; [lia|].
      destruct (Hge D) as (H1 & H2). rewrite H1, H2. split; [reflexivity | lia].
Qed.

Lemma loanAfterIn_due (z : Zone) (u : User) (id : string) (l0 : Loan) (k : nat) :
  String.eqb (loanId l0) id = true -> (Z.of_nat k < tenure l0)%Z ->
  baseDate (loanAfterIn z u id l0 k) = dueAfterIn z k (baseDate l0) /\
  ((1 <= k)%nat ->
   nextDueDate (loanAfterIn z u id l0 k) = Some (dueAfterIn z k (baseDate l0))).
Proof.
  intros Hid Hk. induction k as [| k IH]; [split; [reflexivity | lia]|].
  destruct IH as (IH & _); [lia|].
  cbn [loanAfterIn dueAfterIn].
  destruct (Z.ltb_spec (Z.of_nat k) (tenure l0)) as [_ | C]; [|lia].
  rewrite PaymentFacts.storePayment_hit
    by (destruct (loanAfterIn_terms z u id l0 k) as (-> & _); exact Hid).
  unfold baseDate at 1. cbn [nextDueDate payBodyIn body_nextDueDate].
  destruct (loanAfterIn_terms z u id l0 k) as (_ & ->).
  destruct (Z.geb_spec (Z.of_nat k + 1) (tenure l0)) as [C | _]; [lia|].
  unfold nextDueIn. rewrite IH. split; [reflexivity | intros _; reflexivity].
Qed.

(** When the local times of the schedule exist in the zone (taking them
    to UTC and back gives them again), the local time of the [k]-th due
    date is [k] calendar steps from the local time of the first. *)
Lemma dueAfterIn_local (z : Zone) (k : nat) (t : Z) :
  (forall j, (1 <= j <= k)%nat ->
             LocalTime z (UTC z (dueAfter j (LocalTime z t)))
             = dueAfter j (LocalTime z t)) ->
  LocalTime z (dueAfterIn z k t) = dueAfter k (LocalTime z t).
Proof.
  intros Hrt. induction k as [| k IH]; [reflexivity|].
  rewrite <- (Hrt (S k)) by lia.
  cbn [dueAfterIn dueAfter]. rewrite <- IH by (intros j Hj; apply Hrt; lia).
  unfold setMonthIn, getMonthIn, setMonth, getMonth. reflexivity.
Qed.

(** X5. In the browser's time zone, a due date on local day 1 to 28 of
    its month keeps to the schedule: along accepted payments on a loan
    whose due date (or creation date, when no due date is set) falls on
    such a local day, the due date after the [k]-th payment, while the
    loan is not completed, is in local time the same day and time of day
    exactly [k] calendar months later, provided these local times exist in
    the zone (taking them to UTC and back gives them again, as it does for
    every local time in a zone with a fixed offset; a local time skipped
    by a daylight-saving change does not). *)
Theorem due_date_schedule_in (z : Zone) (u : User) (id : string) (st : State)
        (l : Loan) (k : nat) :
  (forall j, (1 <= j <= k)%nat ->
             LocalTime z (UTC z (dueAfter j (LocalTime z (baseDate l))))
             = dueAfter j (LocalTime z (baseDate l))) ->
  user st = Some u -> currentLoanOf st id = Some l -> alreadyPaidOf st id = 0%Z ->
  (cDate (civilFromDays (Day (LocalTime z (baseDate l)))) <= 28)%Z ->
  (1 <= k)%nat -> (Z.of_nat k < tenure l)%Z ->
  let c := civilFromDays (Day (LocalTime z (baseDate l))) in
  exists lk t,
    currentLoanOf (payTimesIn z k st id) id = Some lk /\
    nextDueDate lk = Some t /\
    civilFromDays (Day (LocalTime z t))
    = mkCivil ((12 * cYear c + cMonth c + Z.of_nat k) / 12)
              ((12 * cYear c + cMonth c + Z.of_nat k) mod 12) (cDate c) /\
    TimeWithinDay (LocalTime z t) = TimeWithinDay (LocalTime z (baseDate l)).
Proof.
  intros Hrt Hu Hcur Hzero Hd Hk1 Hkn c.
  destruct (PaymentFacts.currentLoanOf_inv st id l Hcur) as (ls & _ & Hf).
  pose proof (PaymentFacts.findLoan_hit ls id l Hf) as Hid.
  destruct (payTimesIn_loanAfterIn z u id st l k Hu Hcur Hzero) as (_ & Hlk & _).
  destruct (loanAfterIn_due z u id l k Hid Hkn) as (_ & Hdue).
  exists (loanAfterIn z u id l k), (dueAfterIn z k (baseDate l)).
  split; [exact Hlk|]. split; [exact (Hdue Hk1)|].
  rewrite (dueAfterIn_local z k (baseDate l) Hrt).
  exact (EffectFacts.dueAfter_civil (LocalTime z (baseDate l)) k Hd).
Qed.

Lemma due_date_schedule_in_witness :
  exists lk t,
    currentLoanOf (payTimesIn (fixedZone 19800000) 2 Samples.dashboard "L2") "L2"
    = Some lk /\
    nextDueDate lk = Some t /\
    civilFromDays (Day (LocalTime (fixedZone 19800000) t)) = mkCivil 2024 6 15 /\
    TimeWithinDay (LocalTime (fixedZone 19800000) t) = 19800000%Z.
Proof.
  destruct (due_date_schedule_in (fixedZone 19800000) Samples.asha "L2"
              Samples.dashboard Samples.loanB 2%nat)
    as (lk & t & H1 & H2 & H3 & H4);
    [intros j _; apply fixedZone_round_trip | reflexivity | reflexivity | reflexivity
     | vm_compute; discriminate | lia | vm_compute; reflexivity |].
  exists lk, t. split; [exact H1|]. split; [exact H2|]. split; [exact H3 | exact H4].
Defined.

End ZonedFacts.
